(** * Verification of the authentication core of timeline-app

    Shallow embedding of the NestJS services
    - [RefreshTokenService]  (src/auth/utils/password.utils.ts, third part)
    - [AuthService]          (src/auth/auth.service.ts)
    - [PasswordResetService] (src/auth/password-reset.service.ts)
    - [RolesGuard]           (src/auth/guards/roles.guard.ts)
    - [UsersService.findByEmailOrUsername] (src/users/users.service.ts)

    The Prisma database is modelled as explicit state threaded through a
    small state-and-error monad; exceptions are the [Err] branch, a
    [try/catch] keeps the state reached before the throw, and
    [prisma.$transaction] rolls the state back when its body throws.
    Time values are milliseconds since the epoch ([Z]); [new Date()] is
    the argument [now] of each operation. *)

From Stdlib Require Import ZArith Lia Ascii String.
From stdpp Require Import base gmap strings list.

Local Open Scope Z_scope.

(** ** Exceptions *)

Inductive Error :=
  | Unauthorized (msg : string)
  | Forbidden (msg : string)
  | NotFound (msg : string)
  | BadRequest (msg : string)
  | PrismaRecordNotFound      (** P2025: update/delete of a missing row *)
  | PrismaUniqueViolation     (** P2002: unique constraint failed *)
  | PrismaValidationError     (** a query argument Prisma refuses: an Invalid Date *)
  | JwtError.                 (** thrown by [jwtService.verify] / [sign] *)

Inductive result (A : Type) := Ok (a : A) | Err (e : Error).
Arguments Ok {A} a.
Arguments Err {A} e.

(** ** State-and-error monad *)

Definition M (S A : Type) : Type := S -> S * result A.

Global Instance M_ret S : MRet (M S) := fun A a s => (s, Ok a).
Global Instance M_bind S : MBind (M S) := fun A B k m s =>
  match m s with
  | (s', Ok a) => k a s'
  | (s', Err e) => (s', Err e)
  end.

Definition throw {S A} (e : Error) : M S A := fun s => (s, Err e).

(** [try { m } catch { h }]: the state reached before the throw is kept. *)
Definition try_catch {S A} (m : M S A) (h : Error -> M S A) : M S A :=
  fun s => match m s with
           | (s', Ok a) => (s', Ok a)
           | (s', Err e) => h e s'
           end.

(** [prisma.$transaction(async (prisma) => ...)]: all or nothing. *)
Definition transaction {S A} (m : M S A) : M S A :=
  fun s => match m s with
           | (s', Ok a) => (s', Ok a)
           | (_, Err e) => (s, Err e)
           end.

(** ** Configuration ([ConfigService.get]) *)

(** A JavaScript number as produced by [parseInt]: an integer or NaN. *)
Inductive jsnum := Num (z : Z) | NaN.

Definition num_truthy (n : jsnum) : bool :=
  match n with Num z => negb (z =? 0) | NaN => false end.

Record Config := {
  cfg_string : string -> option string;   (** [get<string>(key)] *)
  cfg_number : string -> option jsnum     (** [get<number>(key)] *)
}.

(** ** JavaScript numbers and dates *)

(** A JavaScript number that is an integer or [+Infinity]: the values that
    [parseInt] of a digit string and the products and sums below take. *)
Inductive jsint := Fin (z : Z) | PosInf.

(** The Number value of an integer [n] ("the Number value for x" of
    ECMAScript): [n] itself below 2^53; above, [n] rounded to 53
    significant bits, ties to even, and [+Infinity] from 2^1024 on.  The
    arguments below are greater than -2^53. *)
Definition to_double (n : Z) : jsint :=
  if n <? 2 ^ 53 then Fin n
  else
    let e := Z.log2 n - 52 in
    let q := Z.shiftr n e in
    let rem := n - Z.shiftl q e in
    let half := 2 ^ (e - 1) in
    let q' := if (half <? rem) || ((rem =? half) && Z.odd q) then q + 1 else q in
    if Z.shiftl q' e <? 2 ^ 1024 then Fin (Z.shiftl q' e) else PosInf.

(** [x * k] for a positive integer constant [k]. *)
Definition js_mul (x : jsint) (k : Z) : jsint :=
  match x with Fin z => to_double (z * k) | PosInf => PosInf end.

(** [t + x] for a time value [t]. *)
Definition js_add (t : Z) (x : jsint) : jsint :=
  match x with Fin z => to_double (t + z) | PosInf => PosInf end.

(** A [Date] object: its time value, or an Invalid Date (time value NaN). *)
Inductive Date := ValidDate (t : Z) | InvalidDate.

(** [TimeClip]: an infinite time or one more than 8.64e15 ms away from the
    epoch gives an Invalid Date. *)
Definition time_clip (x : jsint) : Date :=
  match x with
  | Fin t => if Z.abs t <=? 8640000000000000 then ValidDate t else InvalidDate
  | PosInf => InvalidDate
  end.

(** ** TTL strings: [RefreshTokenService.parseJwtExpirationTime] *)

Definition is_digit (c : ascii) : bool :=
  (48 <=? nat_of_ascii c)%nat && (nat_of_ascii c <=? 57)%nat.

Definition digit_value (c : ascii) : Z := Z.of_nat (nat_of_ascii c) - 48.

(** the character class [[smhdwy]] *)
Definition is_unit_char (c : ascii) : bool :=
  Ascii.eqb c "s" || Ascii.eqb c "m" || Ascii.eqb c "h" ||
  Ascii.eqb c "d" || Ascii.eqb c "w" || Ascii.eqb c "y".

(** [expiresIn.match(/^(\d+)([smhdwy])$/)]: the two groups, or [null].
    The last character must be a unit, everything before it one or more
    ASCII digits. *)
Definition match_ttl (s : string) : option (list ascii * ascii) :=
  match rev (list_ascii_of_string s) with
  | u :: rds =>
      if is_unit_char u && negb (bool_decide (rds = [])) && forallb is_digit rds
      then Some (rev rds, u) else None
  | [] => None
  end.

(** The mathematical integer a string of ASCII digits denotes
    ([mathInt] in the definition of [parseInt]). *)
Definition parseInt10 (ds : list ascii) : Z :=
  fold_left (fun acc c => acc * 10 + digit_value c) ds 0.

(** [parseInt(digits, 10)]: the Number value of [mathInt]. *)
Definition js_parseInt10 (ds : list ascii) : jsint := to_double (parseInt10 ds).

(** Each product is a JavaScript multiplication, evaluated left to right. *)
Definition parseJwtExpirationTime (expiresIn : string) : jsint :=
  match match_ttl expiresIn with
  | None => Fin (60 * 60 * 24 * 7)
  | Some (ds, unit) =>
      let value := js_parseInt10 ds in
      if Ascii.eqb unit "s" then value
      else if Ascii.eqb unit "m" then js_mul value 60
      else if Ascii.eqb unit "h" then js_mul (js_mul value 60) 60
      else if Ascii.eqb unit "d" then js_mul (js_mul (js_mul value 60) 60) 24
      else if Ascii.eqb unit "w" then js_mul (js_mul (js_mul (js_mul value 60) 60) 24) 7
      else if Ascii.eqb unit "y" then js_mul (js_mul (js_mul (js_mul value 60) 60) 24) 365
      else Fin (60 * 60 * 24 * 7)
  end.

(** ** The [RefreshToken] table *)

(** A row of [RefreshToken]; the autoincrement [id] and [createdAt]
    columns are never read by the code and are left out. *)
Record RefreshToken := {
  rt_token : string;
  rt_userId : Z;
  rt_expiresAt : Z;
  rt_isRevoked : bool
}.

Definition set_revoked (r : RefreshToken) : RefreshToken :=
  {| rt_token := rt_token r; rt_userId := rt_userId r;
     rt_expiresAt := rt_expiresAt r; rt_isRevoked := true |}.

(** [token] is [@unique]: the table is a map from the token string. *)
Abbreviation RTStore := (gmap string RefreshToken).

(** [prisma.refreshToken.findUnique({ where: { token } })] *)
Definition rt_findUnique (t : string) : M RTStore (option RefreshToken) :=
  fun st => (st, Ok (st !! t)).

(** [prisma.refreshToken.update({ where: { token }, data: { isRevoked: true } })] *)
Definition rt_update_revoke (t : string) : M RTStore unit :=
  fun st => match st !! t with
            | Some r => (<[t := set_revoked r]> st, Ok ())
            | None => (st, Err PrismaRecordNotFound)
            end.

(** [prisma.refreshToken.updateMany({ where: { userId }, data: { isRevoked: true } })] *)
Definition rt_updateMany_revoke (userId : Z) : M RTStore unit :=
  fun st => ((fun r => if bool_decide (rt_userId r = userId) then set_revoked r else r)
               <$> st, Ok ()).

(** [prisma.refreshToken.create({ data: { userId, token, expiresAt } })];
    [isRevoked] takes its default [false].  The client validates the
    arguments before it sends the query: an Invalid Date is refused. *)
Definition rt_create (userId : Z) (t : string) (expiresAt : Date)
  : M RTStore RefreshToken :=
  fun st => match expiresAt with
            | InvalidDate => (st, Err PrismaValidationError)
            | ValidDate e =>
                match st !! t with
                | Some _ => (st, Err PrismaUniqueViolation)
                | None =>
                    let r := {| rt_token := t; rt_userId := userId;
                                rt_expiresAt := e; rt_isRevoked := false |} in
                    (<[t := r]> st, Ok r)
                end
            end.

(** ** [RefreshTokenService] *)

Definition msg_rt_not_found : string := "無効なリフレッシュトークンです".
Definition msg_rt_revoked : string := "リフレッシュトークンが無効化されています".
Definition msg_rt_expired : string := "リフレッシュトークンの有効期限が切れています".

(** [this.configService.get<string>('jwt.refreshExpiresIn') || '7d'] *)
Definition refreshExpiresIn (cfg : Config) : string :=
  match cfg_string cfg "jwt.refreshExpiresIn" with
  | Some s => if bool_decide (s = ""%string) then "7d" else s
  | None => "7d"
  end.

(** [expiresAt.setTime(new Date().getTime() + expiresIn * 1000)] *)
Definition refresh_expiresAt (cfg : Config) (now : Z) : Date :=
  time_clip (js_add now (js_mul (parseJwtExpirationTime (refreshExpiresIn cfg)) 1000)).

Definition createRefreshToken (cfg : Config) (now : Z) (userId : Z) (token : string)
  : M RTStore RefreshToken :=
  rt_create userId token (refresh_expiresAt cfg now).

Definition revokeAllUserTokens (userId : Z) : M RTStore unit :=
  rt_updateMany_revoke userId.

Definition validateRefreshToken (now : Z) (token : string) : M RTStore RefreshToken :=
  refreshToken ← rt_findUnique token;
  match refreshToken with
  | None => throw (Unauthorized msg_rt_not_found)
  | Some r =>
      if rt_isRevoked r then
        _ ← revokeAllUserTokens (rt_userId r);
        throw (Unauthorized msg_rt_revoked)
      else if bool_decide (now > rt_expiresAt r) then
        throw (Unauthorized msg_rt_expired)
      else mret r
  end.

Definition revokeRefreshToken (token : string) : M RTStore unit :=
  rt_update_revoke token.

Definition rotateRefreshToken (cfg : Config) (now : Z) (token : string)
  (userId : Z) (newToken : string) : M RTStore RefreshToken :=
  transaction (
    _ ← rt_update_revoke token;
    let expiresAt := refresh_expiresAt cfg now in
    rt_create userId newToken expiresAt).

(** ** [AuthService]: refresh and logout *)

Record JwtPayload := { sub : Z }.
Record TokenPair := { accessToken : string; refreshToken : string }.
Record LogoutResult := { success : bool; logout_message : string }.

Definition msg_sub_mismatch : string := "トークンのユーザーIDが一致しません".
Definition msg_invalid_refresh : string := "無効または期限切れのリフレッシュトークンです".
Definition msg_logout : string := "ログアウトしました".

Definition lift_option {S A} (o : option A) : M S A :=
  match o with Some a => mret a | None => throw JwtError end.

Section AuthService.
(** [this.verifyToken(token, true)], i.e. [jwtService.verify] with the
    refresh secret: [None] when it throws (bad signature, expired,
    malformed). *)
Variable verifyRefresh : string -> option JwtPayload.
(** [this.generateTokens(userId)]: [None] when signing throws. *)
Variable generateTokens : Z -> option TokenPair.

Definition refreshTokens (cfg : Config) (now : Z) (token : string)
  : M RTStore TokenPair :=
  try_catch (
    payload ← lift_option (verifyRefresh token);
    refreshTokenEntity ← validateRefreshToken now token;
    if negb (bool_decide (sub payload = rt_userId refreshTokenEntity)) then
      throw (Unauthorized msg_sub_mismatch)
    else
      newTokens ← lift_option (generateTokens (rt_userId refreshTokenEntity));
      _ ← rotateRefreshToken cfg now token (rt_userId refreshTokenEntity)
            (refreshToken newTokens);
      mret newTokens)
    (fun _ => throw (Unauthorized msg_invalid_refresh)).
End AuthService.

Definition logout (token : string) : M RTStore LogoutResult :=
  try_catch (
    _ ← revokeRefreshToken token;
    mret {| success := true; logout_message := msg_logout |})
    (fun _ => mret {| success := true; logout_message := msg_logout |}).

(** ** Users and [UsersService.findByEmailOrUsername] *)

(** The columns of [User] read by the code. *)
Record User := {
  u_id : Z;
  u_email : string;
  u_username : string;
  u_passwordHash : string
}.

(** JavaScript truthiness of an optional string argument. *)
Definition str_truthy (o : option string) : bool :=
  match o with Some s => negb (bool_decide (s = ""%string)) | None => false end.

(** The queries issued, in order, so that the lookup order is observable. *)
Inductive Query := QEmail (e : string) | QUsername (n : string).

(** [prisma.user.findFirst({ where: { email } })]; rows in table order. *)
Definition findFirst_email (users : list User) (e : string) : option User :=
  List.find (fun u => bool_decide (u_email u = e)) users.

(** [prisma.user.findFirst({ where: { username } })] *)
Definition findFirst_username (users : list User) (n : string) : option User :=
  List.find (fun u => bool_decide (u_username u = n)) users.

(** The [catch] returning [null] is not modelled: queries do not fail. *)
Definition findByEmailOrUsername (users : list User)
  (email username : option string) : list Query * option User :=
  if negb (str_truthy email) && negb (str_truthy username) then ([], None)
  else
    let '(log, found) :=
      match email with
      | Some e => if str_truthy email then ([QEmail e], findFirst_email users e)
                  else ([], None)
      | None => ([], None)
      end in
    match found with
    | Some user => (log, Some user)
    | None =>
        match username with
        | Some n => if str_truthy username
                    then (log ++ [QUsername n], findFirst_username users n)
                    else (log, None)
        | None => (log, None)
        end
    end.

(** [AuthService.login], step 1: the same string is passed for both. *)
Definition login_lookup (users : list User) (usernameOrEmail : string)
  : list Query * option User :=
  findByEmailOrUsername users (Some usernameOrEmail) (Some usernameOrEmail).

(** ** The [PasswordResetToken] table and the password-reset flow *)

Record PasswordResetToken := {
  pr_id : Z;
  pr_userId : Z;
  pr_token : string;
  pr_expiresAt : Z
}.

(** A sent mail: [(to, resetToken, username)]. [MailService.sendMail]
    catches its own errors, so sending never throws. *)
Record ResetDB := {
  db_users : list User;
  db_resets : gmap string PasswordResetToken;   (** keyed by the [@unique] token *)
  db_nextId : Z;                                (** autoincrement of [id] *)
  db_outbox : list (string * string * string)
}.

Definition with_resets (db : ResetDB) (m : gmap string PasswordResetToken) : ResetDB :=
  {| db_users := db_users db; db_resets := m; db_nextId := db_nextId db;
     db_outbox := db_outbox db |}.

(** [prisma.passwordResetToken.deleteMany({ where: { userId } })] *)
Definition pr_deleteMany_user (userId : Z) : M ResetDB unit :=
  fun db => (with_resets db (filter (fun kr => pr_userId kr.2 <> userId) (db_resets db)),
             Ok ()).

(** [prisma.passwordResetToken.create({ data: { userId, token, expiresAt } })] *)
Definition pr_create (userId : Z) (t : string) (expiresAt : Date)
  : M ResetDB PasswordResetToken :=
  fun db => match expiresAt with
            | InvalidDate => (db, Err PrismaValidationError)
            | ValidDate e =>
                match db_resets db !! t with
                | Some _ => (db, Err PrismaUniqueViolation)
                | None =>
                    let r := {| pr_id := db_nextId db; pr_userId := userId;
                                pr_token := t; pr_expiresAt := e |} in
                    ({| db_users := db_users db; db_resets := <[t := r]> (db_resets db);
                        db_nextId := db_nextId db + 1; db_outbox := db_outbox db |}, Ok r)
                end
            end.

(** [prisma.passwordResetToken.findUnique({ where: { token } })] *)
Definition pr_findUnique (t : string) : M ResetDB (option PasswordResetToken) :=
  fun db => (db, Ok (db_resets db !! t)).

(** [prisma.passwordResetToken.delete({ where: { id } })] *)
Definition pr_delete_id (i : Z) : M ResetDB unit :=
  fun db => if existsb (fun kr => bool_decide (pr_id kr.2 = i)) (map_to_list (db_resets db))
            then (with_resets db (filter (fun kr => pr_id kr.2 <> i) (db_resets db)), Ok ())
            else (db, Err PrismaRecordNotFound).

(** [prisma.user.update({ where: { id }, data: { passwordHash } })] *)
Definition user_update_password (i : Z) (h : string) : M ResetDB unit :=
  fun db => if existsb (fun u => bool_decide (u_id u = i)) (db_users db)
            then ({| db_users := map (fun u => if bool_decide (u_id u = i)
                        then {| u_id := u_id u; u_email := u_email u;
                                u_username := u_username u; u_passwordHash := h |}
                        else u) (db_users db);
                     db_resets := db_resets db; db_nextId := db_nextId db;
                     db_outbox := db_outbox db |}, Ok ())
            else (db, Err PrismaRecordNotFound).

(** [mailService.sendPasswordResetEmail(to, resetToken, username)] *)
Definition send_reset_mail (to t username : string) : M ResetDB unit :=
  fun db => ({| db_users := db_users db; db_resets := db_resets db;
                db_nextId := db_nextId db;
                db_outbox := db_outbox db ++ [(to, t, username)] |}, Ok ()).

Record ResetResponse := {
  message : string;
  token : option string;
  userId : option Z
}.

Definition msg_reset_sent_if_exists : string :=
  "パスワードリセット手順が送信されました（該当するアカウントが存在する場合）".
Definition msg_reset_sent : string := "パスワードリセット手順が送信されました".
Definition msg_reset_invalid : string := "無効または期限切れのトークンです".
Definition msg_reset_expired : string := "トークンの有効期限が切れています".
Definition msg_reset_done : string := "パスワードが正常にリセットされました".

(** The configuration key the service reads, verbatim from the source
    (its third character is U+00DF). *)
Definition reset_hours_key : string := "auth.pßasswordResetExpiresInHours".

(** [this.configService.get<number>(reset_hours_key) || 1] *)
Definition expiresInHours (cfg : Config) : Z :=
  match cfg_number cfg reset_hours_key with
  | Some (Num z) => if z =? 0 then 1 else z
  | _ => 1
  end.

(** [expiresAt.setHours(expiresAt.getHours() + expiresInHours)], with the
    server clock on a zone without daylight-saving jumps, so that it adds
    [expiresInHours] hours to the time value before [TimeClip].  For a
    clock reading between 1970 and the year 5000 (0 <= now <= 10^14) the
    floating-point steps of [setHours] are exact whenever the result is in
    the range of dates, and a result out of that range stays out of it
    after rounding, so the sum is taken exactly. *)
Definition reset_expiresAt (cfg : Config) (now : Z) : Date :=
  time_clip (Fin (now + expiresInHours cfg * 60 * 60 * 1000)).

(** [randomHex] is [randomBytes(32).toString('hex')]. *)
Definition generateResetToken (cfg : Config) (now : Z) (randomHex : string)
  (email : string) : M ResetDB ResetResponse :=
  user ← (fun db => (db, Ok (findByEmailOrUsername (db_users db) (Some email) None).2));
  match user with
  | None => mret {| message := msg_reset_sent_if_exists; token := None; userId := None |}
  | Some u =>
      let resetToken := randomHex in
      let expiresAt := reset_expiresAt cfg now in
      _ ← pr_deleteMany_user (u_id u);
      _ ← pr_create (u_id u) resetToken expiresAt;
      _ ← send_reset_mail (u_email u) resetToken (u_username u);
      mret {| message := msg_reset_sent; token := Some resetToken; userId := Some (u_id u) |}
  end.

Definition validateResetToken (now : Z) (t : string) (db : ResetDB) : bool :=
  match db_resets db !! t with
  | None => false
  | Some r => negb (bool_decide (pr_expiresAt r < now))
  end.

Section PasswordReset.
(** [hashPassword] (bcrypt with a random salt). *)
Variable hashPassword : string -> string.

Definition resetPassword (now : Z) (t : string) (newPassword : string)
  : M ResetDB string :=
  resetToken ← pr_findUnique t;
  match resetToken with
  | None => throw (NotFound msg_reset_invalid)
  | Some r =>
      if bool_decide (pr_expiresAt r < now) then
        _ ← pr_delete_id (pr_id r);
        throw (BadRequest msg_reset_expired)
      else
        let hashedPassword := hashPassword newPassword in
        _ ← transaction (
              _ ← user_update_password (pr_userId r) hashedPassword;
              pr_delete_id (pr_id r));
        mret msg_reset_done
  end.
End PasswordReset.

(** ** [RolesGuard.canActivate] *)

(** [request.user]: the fields the guard reads. *)
Record UserInfo := {
  ui_userId : option Z;
  ui_sub : option Z;
  ui_id : option Z
}.

Definition num_opt_truthy (o : option Z) : bool :=
  match o with Some z => negb (z =? 0) | None => false end.

(** [user.userId || user.sub || user.id] *)
Definition resolveUserId (user : UserInfo) : option Z :=
  if num_opt_truthy (ui_userId user) then ui_userId user
  else if num_opt_truthy (ui_sub user) then ui_sub user
  else ui_id user.

(** The [UserRole] join table with each row's [role.name]. *)
Record UserRoleRow := { ur_userId : Z; ur_roleName : string }.

(** [getUserRoles(userId)] *)
Definition getUserRoles (userRoles : list UserRoleRow) (uid : Z) : list string :=
  if uid =? 0 then []
  else map ur_roleName (List.filter (fun ur => bool_decide (ur_userId ur = uid)) userRoles).

Definition msg_auth_required : string := "認証が必要です".
Definition msg_no_user_id : string := "有効なユーザーIDがありません".
Definition msg_forbidden : string := "このアクションを実行する権限がありません".

(** [requiredRoles] is the [getAllAndOverride(ROLES_KEY, ...)] metadata,
    [None] when absent. *)
Definition canActivate (userRoles : list UserRoleRow)
  (requiredRoles : option (list string)) (user : option UserInfo) : result bool :=
  match requiredRoles with
  | None | Some [] => Ok true
  | Some rs =>
      match user with
      | None => Err (Unauthorized msg_auth_required)
      | Some ui =>
          match resolveUserId ui with
          | None => Err (Unauthorized msg_no_user_id)
          | Some uid =>
              let roles := getUserRoles userRoles uid in
              if existsb (fun role => bool_decide (role ∈ roles)) rs then Ok true
              else Err (Forbidden msg_forbidden)
          end
      end
  end.

(** ** Application configuration (src/config/app.config.ts) *)

Fixpoint leading_digits (l : list ascii) : list ascii :=
  match l with
  | c :: l' => if is_digit c then c :: leading_digits l' else []
  | [] => []
  end.

(** [parseInt(s, 10)] on an environment string: the leading digits, NaN
    when there are none (leading blanks and signs are not modelled).  The
    value is kept exact, not rounded to a double: it only feeds the key
    "auth.passwordResetExpiresInHours", which no service reads (the reset
    service reads [reset_hours_key]). *)
Definition parseInt_env (s : string) : jsnum :=
  let ds := leading_digits (list_ascii_of_string s) in
  if bool_decide (ds = []) then NaN else Num (parseInt10 ds).

(** The entries of the configuration factory used by the flows above. *)
Definition app_config (env : string -> option string) : Config := {|
  cfg_string := fun key =>
    if bool_decide (key = "jwt.refreshExpiresIn"%string) then
      Some (match env "JWT_REFRESH_EXPIRATION" with
            | Some v => if bool_decide (v = ""%string) then "7d" else v
            | None => "7d" end)
    else None;
  cfg_number := fun key =>
    if bool_decide (key = "auth.passwordResetExpiresInHours"%string) then
      Some (match env "PASSWORD_RESET_EXPIRES_IN_HOURS" with
            | Some v => if bool_decide (v = ""%string) then Num 1 else parseInt_env v
            | None => Num 1 end)
    else None
|}.

(** ** [AuthService.logoutFromAllDevices] *)

Definition msg_logout_all : string := "すべてのデバイスからログアウトしました".

Definition logoutFromAllDevices (userId : Z) : M RTStore LogoutResult :=
  _ ← revokeAllUserTokens userId;
  mret {| success := true; logout_message := msg_logout_all |}.

(** ** [AuthService.login] *)

(** The users table next to the refresh-token table. *)
Record AuthDB := {
  adb_users : list User;
  adb_tokens : RTStore
}.

(** Run a refresh-token-table operation on the whole database. *)
Definition on_tokens {A} (m : M RTStore A) : M AuthDB A :=
  fun db => let '(st', r) := m (adb_tokens db) in
            ({| adb_users := adb_users db; adb_tokens := st' |}, r).

(** [const { passwordHash, ...userWithoutPassword } = user] *)
Record UserWithoutPassword := {
  uw_id : Z;
  uw_email : string;
  uw_username : string
}.

Definition strip_password (u : User) : UserWithoutPassword :=
  {| uw_id := u_id u; uw_email := u_email u; uw_username := u_username u |}.

Record LoginResponse := {
  lr_user : UserWithoutPassword;
  lr_accessToken : string;
  lr_refreshToken : string
}.

Definition msg_bad_credentials : string := "認証情報が正しくありません".

Section Login.
(** [verifyPassword(plain, hash)] ([bcrypt.compare]). *)
Variable verifyPassword : string -> string -> bool.
(** [this.generateTokens(userId)]: [None] when signing throws. *)
Variable generateTokens : Z -> option TokenPair.

Definition login (cfg : Config) (now : Z) (usernameOrEmail password : string)
  : M AuthDB LoginResponse :=
  user ← (fun db => (db, Ok (login_lookup (adb_users db) usernameOrEmail).2));
  match user with
  | None => throw (Unauthorized msg_bad_credentials)
  | Some u =>
      if negb (verifyPassword password (u_passwordHash u)) then
        throw (Unauthorized msg_bad_credentials)
      else
        toks ← lift_option (generateTokens (u_id u));
        _ ← on_tokens (createRefreshToken cfg now (u_id u) (refreshToken toks));
        mret {| lr_user := strip_password u; lr_accessToken := accessToken toks;
                lr_refreshToken := refreshToken toks |}
  end.
End Login.

(** ** [PasswordResetController.resetPassword] *)

(** [s.length] of a JavaScript string given by its UTF-8 bytes: the number
    of UTF-16 code units, one per character and two for a character
    outside the Basic Multilingual Plane (4-byte UTF-8 sequence). *)
Fixpoint js_length_bytes (l : list ascii) : nat :=
  match l with
  | [] => 0
  | c :: l' =>
      let b := nat_of_ascii c in
      (if (128 <=? b) && (b <? 192) then 0        (* continuation byte *)
       else if 240 <=? b then 2 else 1)%nat + js_length_bytes l'
  end.

Definition js_length (s : string) : nat := js_length_bytes (list_ascii_of_string s).

Definition msg_password_too_short : string := "パスワードは8文字以上である必要があります".

Definition controller_resetPassword (hashPassword : string -> string) (now : Z)
  (t : string) (newPassword : option string) : M ResetDB string :=
  match newPassword with
  | Some p =>
      if bool_decide (p = ""%string) || (js_length p <? 8)%nat then
        throw (BadRequest msg_password_too_short)
      else resetPassword hashPassword now t p
  | None => throw (BadRequest msg_password_too_short)
  end.

(** ** [JwtStrategy.validate] *)

(** [return { userId, ...payload }] with [userId = payload.sub]; the tokens
    this service signs carry no [userId] or [id] claim. *)
Definition jwt_validate (payload : JwtPayload) : UserInfo :=
  {| ui_userId := Some (sub payload); ui_sub := Some (sub payload); ui_id := None |}.

(** ** Definitions that follow the specification's words *)

(** The unit table of the spec: s=1, m=60, h=3600, d=86400, w=604800,
    y=31536000. *)
Definition spec_unit_seconds (c : ascii) : option Z :=
  if Ascii.eqb c "s" then Some 1
  else if Ascii.eqb c "m" then Some 60
  else if Ascii.eqb c "h" then Some 3600
  else if Ascii.eqb c "d" then Some 86400
  else if Ascii.eqb c "w" then Some 604800
  else if Ascii.eqb c "y" then Some 31536000
  else None.

(** The numeric value of a decimal numeral, positionally. *)
Fixpoint digits_value (ds : list ascii) : Z :=
  match ds with
  | [] => 0
  | c :: ds' => digit_value c * 10 ^ Z.of_nat (length ds') + digits_value ds'
  end.

(** A reset token is live at [now] while [now <= expiresAt]. *)
Definition reset_live (now : Z) (r : PasswordResetToken) : Prop :=
  now <= pr_expiresAt r.

(** At most one live reset token per user. *)
Definition one_live_reset_per_user (now : Z) (m : gmap string PasswordResetToken) : Prop :=
  forall k1 k2 r1 r2, m !! k1 = Some r1 -> m !! k2 = Some r2 ->
    reset_live now r1 -> reset_live now r2 ->
    pr_userId r1 = pr_userId r2 -> k1 = k2.

(** The role names assigned to a user in the [UserRole] table. *)
Definition assigned_role_names (userRoles : list UserRoleRow) (uid : Z) : list string :=
  map ur_roleName (List.filter (fun ur => bool_decide (ur_userId ur = uid)) userRoles).

(** ** Sanity checks on concrete inputs *)

Example parse_15m : parseJwtExpirationTime "15m" = Fin 900.
Proof. reflexivity. Qed.
Example parse_7d : parseJwtExpirationTime "7d" = Fin 604800.
Proof. reflexivity. Qed.
Example parse_bad : parseJwtExpirationTime "7 d" = Fin 604800.
Proof. reflexivity. Qed.
Example parse_nodigit : parseJwtExpirationTime "d" = Fin 604800.
Proof. reflexivity. Qed.
Example parse_huge : parseJwtExpirationTime "300000y" = Fin 9460800000000.
Proof. vm_compute. reflexivity. Qed.

(** ** TTL parsing *)

Lemma parseInt10_acc (ds : list ascii) (acc : Z) :
  fold_left (fun acc c => acc * 10 + digit_value c) ds acc =
  acc * 10 ^ Z.of_nat (length ds) + digits_value ds.
Proof.
  revert acc. induction ds as [|c ds IH]; intros acc; simpl.
  - lia.
  - rewrite IH, Nat2Z.inj_succ, Z.pow_succ_r by lia. ring.
Qed.

Lemma parseInt10_value (ds : list ascii) : parseInt10 ds = digits_value ds.
Proof. unfold parseInt10. rewrite parseInt10_acc. lia. Qed.

Lemma forallb_digits (ds : list ascii) :
  forallb is_digit ds = true <-> Forall (fun c => is_digit c = true) ds.
Proof. rewrite forallb_forall, List.Forall_forall. tauto. Qed.

Lemma match_ttl_Some (s : string) (ds : list ascii) (u : ascii) :
  match_ttl s = Some (ds, u) ->
  ds <> [] /\ Forall (fun c => is_digit c = true) ds /\ is_unit_char u = true /\
  s = string_of_list_ascii (ds ++ [u]).
Proof.
  unfold match_ttl. intros H.
  destruct (rev (list_ascii_of_string s)) as [|u' rds] eqn:Hrev; [discriminate|].
  destruct (is_unit_char u') eqn:Hu; simpl in H; [|discriminate].
  destruct (bool_decide (rds = [])) eqn:Hnil; simpl in H; [discriminate|].
  destruct (forallb is_digit rds) eqn:Hd; [|discriminate].
  injection H as <- <-.
  apply bool_decide_eq_false in Hnil.
  repeat split.
  - intros Hr. apply Hnil. rewrite <- (rev_involutive rds), Hr. reflexivity.
  - apply forallb_digits, forallb_forall. intros c Hc. apply in_rev in Hc.
    rewrite forallb_forall in Hd. auto.
  - exact Hu.
  - rewrite <- (string_of_list_ascii_of_string s). f_equal.
    rewrite <- (rev_involutive (list_ascii_of_string s)), Hrev. reflexivity.
Qed.

Lemma match_ttl_app (ds : list ascii) (u : ascii) :
  ds <> [] -> Forall (fun c => is_digit c = true) ds -> is_unit_char u = true ->
  match_ttl (string_of_list_ascii (ds ++ [u])) = Some (ds, u).
Proof.
  intros Hne Hd Hu. unfold match_ttl.
  rewrite list_ascii_of_string_of_list_ascii, rev_app_distr. simpl.
  rewrite Hu. simpl.
  assert (Hr : rev ds <> []) by (intros Hr; apply Hne; rewrite <- (rev_involutive ds), Hr; reflexivity).
  rewrite (bool_decide_eq_false_2 _ Hr). simpl.
  assert (Hf : forallb is_digit (rev ds) = true).
  { apply forallb_forall. intros c Hc. apply in_rev in Hc.
    rewrite List.Forall_forall in Hd. auto. }
  rewrite Hf, rev_involutive. reflexivity.
Qed.

Lemma unit_char_spec (u : ascii) :
  is_unit_char u = true <-> exists k, spec_unit_seconds u = Some k.
Proof.
  unfold is_unit_char, spec_unit_seconds.
  destruct (Ascii.eqb u "s"), (Ascii.eqb u "m"), (Ascii.eqb u "h"),
    (Ascii.eqb u "d"), (Ascii.eqb u "w"), (Ascii.eqb u "y");
    simpl; split; try discriminate; eauto; intros [k Hk]; discriminate.
Qed.

Lemma digits_value_nonneg (ds : list ascii) :
  Forall (fun c => is_digit c = true) ds -> 0 <= digits_value ds.
Proof.
  induction 1 as [|c ds Hc _ IH]; simpl; [lia|].
  unfold is_digit, digit_value in *. apply andb_prop in Hc as [H1 _].
  apply Nat.leb_le in H1. pose proof (Z.pow_nonneg 10 (Z.of_nat (length ds))). nia.
Qed.

Lemma to_double_small (n : Z) : n < 2 ^ 53 -> to_double n = Fin n.
Proof. intros H. unfold to_double. apply Z.ltb_lt in H. rewrite H. reflexivity. Qed.

Lemma parse_matched (s : string) (ds : list ascii) (u : ascii) (k : Z) :
  match_ttl s = Some (ds, u) -> spec_unit_seconds u = Some k ->
  digits_value ds * k < 2 ^ 53 ->
  parseJwtExpirationTime s = Fin (digits_value ds * k).
Proof.
  intros Hm Hk Hb. pose proof Hm as Hd. apply match_ttl_Some in Hd as (_ & Hd & _).
  apply digits_value_nonneg in Hd.
  unfold parseJwtExpirationTime, js_parseInt10. rewrite Hm, parseInt10_value.
  change (2 ^ 53) with 9007199254740992 in Hb.
  unfold spec_unit_seconds in Hk.
  repeat match type of Hk with
         | context [if ?b then _ else _] => destruct b; [injection Hk as <-|]
         end; try discriminate;
    repeat (rewrite to_double_small by (change (2 ^ 53) with 9007199254740992; nia);
            cbn [js_mul]);
    f_equal; lia.
Qed.

(** C6 (corrected): a TTL string [<digits><unit>] with a unit of the table
    s=1, m=60, h=3600, d=86400, w=604800, y=31536000 is parsed to the
    numeral's value times the unit's seconds as long as that product is
    below 2^53 (JavaScript numbers are doubles; beyond, [parseInt] and the
    multiplications round, see [parseJwtExpirationTime_rounds]); every
    other string gives 604800 seconds (7 days). *)
Theorem parseJwtExpirationTime_spec :
  (forall (ds : list ascii) (u : ascii) (k : Z),
      ds <> [] -> Forall (fun c => is_digit c = true) ds ->
      spec_unit_seconds u = Some k -> digits_value ds * k < 2 ^ 53 ->
      parseJwtExpirationTime (string_of_list_ascii (ds ++ [u]))
        = Fin (digits_value ds * k)) /\
  (forall s : string,
      ~ (exists (ds : list ascii) (u : ascii) (k : Z),
            ds <> [] /\ Forall (fun c => is_digit c = true) ds /\
            spec_unit_seconds u = Some k /\ s = string_of_list_ascii (ds ++ [u])) ->
      parseJwtExpirationTime s = Fin 604800).
Proof.
  split.
  - intros ds u k Hne Hd Hk Hb. apply parse_matched with (u := u); [|exact Hk|exact Hb].
    apply match_ttl_app; auto. apply unit_char_spec. eauto.
  - intros s Hnot. destruct (match_ttl s) as [[ds u]|] eqn:Hm.
    + exfalso. apply match_ttl_Some in Hm as (Hne & Hd & Hu & ->).
      apply unit_char_spec in Hu as [k Hk]. apply Hnot. eauto 10.
    + unfold parseJwtExpirationTime. rewrite Hm. reflexivity.
Qed.

Lemma parseJwtExpirationTime_spec_witness :
  parseJwtExpirationTime "15m" = Fin 900 /\ parseJwtExpirationTime "7x" = Fin 604800.
Proof.
  split.
  - refine (eq_trans ((proj1 parseJwtExpirationTime_spec)
                        ["1"; "5"]%char "m"%char 60 _ _ _ _) _);
      [discriminate | repeat constructor | reflexivity | vm_compute; reflexivity
      | reflexivity].
  - apply (proj2 parseJwtExpirationTime_spec).
    intros (ds & u & k & Hne & Hd & Hk & Hs).
    apply (f_equal list_ascii_of_string) in Hs.
    rewrite list_ascii_of_string_of_list_ascii in Hs.
    apply (f_equal (@rev ascii)) in Hs. rewrite rev_app_distr in Hs.
    simpl in Hs. injection Hs as Hu _. subst u. discriminate.
Defined.

(** C6, counterexample: "9007199254740993s" has the form [<digits><unit>]
    with unit s = 1 second, but [parseInt] returns the double nearest to
    9007199254740993, so the code yields 9007199254740992 seconds rather
    than the numeral's value. *)
Theorem parseJwtExpirationTime_rounds :
  list_ascii_of_string "9007199254740993" <> [] /\
  Forall (fun c => is_digit c = true) (list_ascii_of_string "9007199254740993") /\
  spec_unit_seconds "s" = Some 1 /\
  digits_value (list_ascii_of_string "9007199254740993") * 1 = 9007199254740993 /\
  parseJwtExpirationTime
    (string_of_list_ascii (list_ascii_of_string "9007199254740993" ++ ["s"%char]))
    = Fin 9007199254740992.
Proof.
  split; [discriminate|]. split; [repeat constructor|].
  split; [reflexivity|]. split; vm_compute; reflexivity.
Qed.

(** ** Refresh-token store *)

Ltac unfold_monad :=
  unfold mbind, M_bind, mret, M_ret, throw, try_catch, transaction in *.

(** C1: [validateRefreshToken] fails "not found" on an unknown token; on a
    revoked token it first revokes every record of the owner (the failure
    is returned together with that store) and then fails "revoked"; on a
    token past its expiry it fails "expired"; otherwise it returns the
    record and leaves the store as it was. *)
Theorem validateRefreshToken_spec (now : Z) (token : string) (st : RTStore) :
  (st !! token = None ->
     validateRefreshToken now token st = (st, Err (Unauthorized msg_rt_not_found))) /\
  (forall r, st !! token = Some r -> rt_isRevoked r = true ->
     (validateRefreshToken now token st).2 = Err (Unauthorized msg_rt_revoked) /\
     forall k, (validateRefreshToken now token st).1 !! k =
       (fun r' => if bool_decide (rt_userId r' = rt_userId r) then set_revoked r' else r')
         <$> st !! k) /\
  (forall r, st !! token = Some r -> rt_isRevoked r = false -> now > rt_expiresAt r ->
     validateRefreshToken now token st = (st, Err (Unauthorized msg_rt_expired))) /\
  (forall r, st !! token = Some r -> rt_isRevoked r = false -> now <= rt_expiresAt r ->
     validateRefreshToken now token st = (st, Ok r)).
Proof.
  unfold validateRefreshToken, rt_findUnique, revokeAllUserTokens,
    rt_updateMany_revoke; unfold_monad.
  split; [|split; [|split]].
  - intros H. rewrite H. reflexivity.
  - intros r H Hr. rewrite H, Hr. split; [reflexivity|].
    intros k. simpl. apply lookup_fmap.
  - intros r H Hr Hexp. rewrite H, Hr, bool_decide_eq_true_2 by lia. reflexivity.
  - intros r H Hr Hexp. rewrite H, Hr, bool_decide_eq_false_2 by lia. reflexivity.
Qed.

Lemma validateRefreshToken_spec_witness :
  let st : RTStore := {[ "a"%string := {| rt_token := "a"; rt_userId := 1;
                                          rt_expiresAt := 10; rt_isRevoked := false |} ]} in
  validateRefreshToken 5 "a" st = (st, Ok {| rt_token := "a"; rt_userId := 1;
                                             rt_expiresAt := 10; rt_isRevoked := false |}).
Proof.
  intros st. apply (proj2 (proj2 (proj2 (validateRefreshToken_spec 5 "a" st)))).
  - reflexivity.
  - reflexivity.
  - simpl. lia.
Defined.

Lemma validateRefreshToken_Ok (now : Z) (token : string) (st st' : RTStore)
  (r : RefreshToken) :
  validateRefreshToken now token st = (st', Ok r) ->
  st !! token = Some r /\ st' = st /\ rt_isRevoked r = false /\ now <= rt_expiresAt r.
Proof.
  unfold validateRefreshToken, rt_findUnique, revokeAllUserTokens,
    rt_updateMany_revoke; unfold_monad.
  destruct (st !! token) as [r0|] eqn:H; [|discriminate].
  destruct (rt_isRevoked r0) eqn:Hr; [discriminate|].
  case_bool_decide; [discriminate|].
  intros E; injection E as <- <-. repeat split; auto; lia.
Qed.

(** C2: [rotateRefreshToken] is all-or-nothing: either it succeeds, the old
    record is revoked and the new token is inserted as an active record,
    or it fails and the store is exactly as before. *)
Theorem rotateRefreshToken_atomic (cfg : Config) (now : Z) (oldToken : string)
  (userId : Z) (newToken : string) (st : RTStore) :
  (exists r_old r_new e,
      rotateRefreshToken cfg now oldToken userId newToken st =
        (<[newToken := r_new]> (<[oldToken := set_revoked r_old]> st), Ok r_new) /\
      st !! oldToken = Some r_old /\
      refresh_expiresAt cfg now = ValidDate e /\
      r_new = {| rt_token := newToken; rt_userId := userId;
                 rt_expiresAt := e; rt_isRevoked := false |} /\
      (<[newToken := r_new]> (<[oldToken := set_revoked r_old]> st)) !! oldToken
        = Some (set_revoked r_old) /\
      (<[newToken := r_new]> (<[oldToken := set_revoked r_old]> st)) !! newToken
        = Some r_new) \/
  (exists e, rotateRefreshToken cfg now oldToken userId newToken st = (st, Err e)).
Proof.
  unfold rotateRefreshToken, rt_update_revoke, rt_create; unfold_monad.
  destruct (st !! oldToken) as [r_old|] eqn:Hold; [|right; eauto].
  destruct (refresh_expiresAt cfg now) as [e|] eqn:He; [|right; eauto].
  destruct (<[oldToken:=set_revoked r_old]> st !! newToken) as [x|] eqn:Hnew;
    [right; eauto|].
  left. do 3 eexists. split; [reflexivity|]. split; [reflexivity|].
  split; [reflexivity|]. split; [reflexivity|].
  assert (Hne : oldToken <> newToken).
  { intros ->. rewrite lookup_insert_eq in Hnew. discriminate. }
  split.
  - rewrite lookup_insert_ne by congruence. apply lookup_insert_eq.
  - apply lookup_insert_eq.
Qed.

(** C8: [AuthService.logout] returns [{ success: true }] with the logout
    message for every token and store, also on a second call. *)
Theorem logout_always_succeeds (token : string) (st : RTStore) :
  (logout token st).2 = Ok {| success := true; logout_message := msg_logout |} /\
  (logout token (logout token st).1).2 = Ok {| success := true; logout_message := msg_logout |}.
Proof.
  unfold logout, revokeRefreshToken, rt_update_revoke; unfold_monad.
  destruct (st !! token) eqn:H; simpl.
  - rewrite lookup_insert_eq. split; reflexivity.
  - rewrite H. split; reflexivity.
Qed.

(** ** [AuthService.refreshTokens] *)

Lemma try_catch_rethrow {S A} (m : M S A) (e0 : Error) (s : S) :
  (exists s' a, m s = (s', Ok a) /\ try_catch m (fun _ => throw e0) s = (s', Ok a)) \/
  (exists s', try_catch m (fun _ => throw e0) s = (s', Err e0) /\
              exists e, (m s).2 = Err e).
Proof.
  unfold try_catch, throw. destruct (m s) as [s' [a|e]]; [left|right]; eauto.
Qed.

(** C3: every failure of [refreshTokens] (JWT verification, store
    validation, subject cross-check, signing, rotation) reaches the caller
    as the one [Unauthorized] error with the message "invalid or expired
    refresh token"; in particular a payload whose [sub] differs from the
    owner of the store record always fails. *)
Theorem refreshTokens_generic_failure
  (verifyRefresh : string -> option JwtPayload) (generateTokens : Z -> option TokenPair)
  (cfg : Config) (now : Z) (token : string) (st : RTStore) :
  (forall e, (refreshTokens verifyRefresh generateTokens cfg now token st).2 = Err e ->
             e = Unauthorized msg_invalid_refresh) /\
  (forall p r, verifyRefresh token = Some p -> st !! token = Some r -> sub p <> rt_userId r ->
     (refreshTokens verifyRefresh generateTokens cfg now token st).2
       = Err (Unauthorized msg_invalid_refresh)).
Proof.
  unfold refreshTokens.
  split.
  - intros e He.
    match type of He with context [try_catch ?m _ st] =>
      destruct (try_catch_rethrow m (Unauthorized msg_invalid_refresh) st)
        as [(s' & a & _ & Hr) | (s' & Hr & _)] end;
      rewrite Hr in He; simpl in He; congruence.
  - intros p r Hv Hst Hsub.
    match goal with |- context [try_catch ?m _ st] =>
      destruct (try_catch_rethrow m (Unauthorized msg_invalid_refresh) st)
        as [(s' & a & Hm & _) | (s' & Hr & _)] end;
      [exfalso|rewrite Hr; reflexivity].
    revert Hm. rewrite Hv. unfold lift_option. unfold_monad.
    destruct (validateRefreshToken now token st) as [s1 [r1|e1]] eqn:Hval;
      [|discriminate].
    apply validateRefreshToken_Ok in Hval as (Hst' & -> & _ & _).
    rewrite Hst in Hst'. injection Hst' as <-.
    rewrite bool_decide_eq_false_2 by exact Hsub. simpl. discriminate.
Qed.

Lemma refreshTokens_generic_failure_witness :
  let st : RTStore := {[ "t"%string := {| rt_token := "t"; rt_userId := 2;
                                          rt_expiresAt := 100; rt_isRevoked := false |} ]} in
  (refreshTokens (fun _ => Some {| sub := 1 |})
                 (fun _ => Some {| accessToken := "a"; refreshToken := "n" |})
                 (app_config (fun _ => None)) 5 "t" st).2
    = Err (Unauthorized msg_invalid_refresh).
Proof.
  intros st.
  apply (proj2 (refreshTokens_generic_failure _ _ _ 5 "t" st)
               {| sub := 1 |} {| rt_token := "t"; rt_userId := 2;
                                 rt_expiresAt := 100; rt_isRevoked := false |}).
  - reflexivity.
  - reflexivity.
  - simpl. lia.
Defined.

(** ** [RolesGuard] *)

Lemma getUserRoles_assigned (userRoles : list UserRoleRow) (uid : Z) :
  (forall ur, In ur userRoles -> ur_userId ur > 0) ->
  getUserRoles userRoles uid = assigned_role_names userRoles uid.
Proof.
  intros Hpos. unfold getUserRoles, assigned_role_names.
  destruct (Z.eqb_spec uid 0) as [->|]; [|reflexivity].
  induction userRoles as [|ur urs IH]; [reflexivity|]. simpl.
  rewrite bool_decide_eq_false_2.
  - apply IH. intros x Hx. apply Hpos. right. exact Hx.
  - specialize (Hpos ur (or_introl eq_refl)). lia.
Qed.

Lemma has_required_role (rs roles : list string) :
  existsb (fun role => bool_decide (role ∈ roles)) rs = true <->
  exists r, In r rs /\ In r roles.
Proof.
  rewrite existsb_exists. split.
  - intros (r & Hr & Hb). apply bool_decide_eq_true_1 in Hb.
    apply list_elem_of_In in Hb. eauto.
  - intros (r & Hr & Hin). exists r. split; [exact Hr|].
    apply bool_decide_eq_true_2, list_elem_of_In, Hin.
Qed.

(** C9: the guard allows when no roles are required (absent or empty);
    otherwise it fails [Unauthorized] without a user or without a user id,
    allows when one of the user's assigned role names is required, and
    fails [Forbidden] when none is.  Role rows reference autoincrement user
    ids, which are positive. *)
Theorem canActivate_spec (userRoles : list UserRoleRow)
  (Hpos : forall ur, In ur userRoles -> ur_userId ur > 0) :
  (forall user, canActivate userRoles None user = Ok true) /\
  (forall user, canActivate userRoles (Some []) user = Ok true) /\
  (forall rs, rs <> [] ->
     canActivate userRoles (Some rs) None = Err (Unauthorized msg_auth_required)) /\
  (forall rs ui, rs <> [] -> resolveUserId ui = None ->
     canActivate userRoles (Some rs) (Some ui) = Err (Unauthorized msg_no_user_id)) /\
  (forall rs ui uid, rs <> [] -> resolveUserId ui = Some uid ->
     (exists r, In r rs /\ In r (assigned_role_names userRoles uid)) ->
     canActivate userRoles (Some rs) (Some ui) = Ok true) /\
  (forall rs ui uid, rs <> [] -> resolveUserId ui = Some uid ->
     ~ (exists r, In r rs /\ In r (assigned_role_names userRoles uid)) ->
     canActivate userRoles (Some rs) (Some ui) = Err (Forbidden msg_forbidden)).
Proof.
  split; [reflexivity|]. split; [reflexivity|].
  split; [intros [|r rs] Hne; [congruence|reflexivity]|].
  split; [intros [|r rs] ui Hne Hu; [congruence|simpl; rewrite Hu; reflexivity]|].
  split.
  - intros [|r rs] ui uid Hne Hu Hex; [congruence|].
    unfold canActivate. rewrite Hu, getUserRoles_assigned by exact Hpos.
    apply has_required_role in Hex. rewrite Hex. reflexivity.
  - intros [|r rs] ui uid Hne Hu Hex; [congruence|].
    unfold canActivate. rewrite Hu, getUserRoles_assigned by exact Hpos.
    destruct (existsb _ _) eqn:Hb; [|reflexivity].
    exfalso. apply Hex, has_required_role, Hb.
Qed.

Lemma canActivate_spec_witness :
  let rows := [ {| ur_userId := 1; ur_roleName := "user" |};
                {| ur_userId := 2; ur_roleName := "admin" |} ] in
  let alice := {| ui_userId := Some 1; ui_sub := Some 1; ui_id := None |} in
  let bob := {| ui_userId := Some 2; ui_sub := Some 2; ui_id := None |} in
  canActivate rows (Some ["admin"%string]) (Some alice) = Err (Forbidden msg_forbidden) /\
  canActivate rows (Some ["admin"%string]) (Some bob) = Ok true /\
  canActivate rows (Some []) None = Ok true.
Proof.
  intros rows alice bob.
  assert (Hpos : forall ur, In ur rows -> ur_userId ur > 0).
  { intros ur [<-|[<-|[]]]; simpl; lia. }
  destruct (canActivate_spec rows Hpos) as (_ & H2 & _ & _ & H5 & H6).
  split; [|split].
  - apply (H6 _ _ 1); [discriminate|reflexivity|].
    intros (r & [<-|[]] & Hin). simpl in Hin. intuition discriminate.
  - apply (H5 _ _ 2); [discriminate|reflexivity|].
    exists "admin"%string. simpl. auto.
  - apply H2.
Defined.

(** ** [UsersService.findByEmailOrUsername] and [AuthService.login] *)

(** C10: with both arguments present (non-empty, hence truthy), the email
    query is issued first and a user with that email is returned; the
    username query is issued only when no user has that email.  In [login],
    which passes the same string twice, the owner of the email wins over a
    different user whose username is that string. *)
Theorem findByEmailOrUsername_email_first (users : list User) (email username s : string)
  (Hemail : email <> ""%string) (Husername : username <> ""%string)
  (Hs : s <> ""%string) :
  (forall u, findFirst_email users email = Some u ->
     findByEmailOrUsername users (Some email) (Some username) = ([QEmail email], Some u)) /\
  (findFirst_email users email = None ->
     findByEmailOrUsername users (Some email) (Some username)
       = ([QEmail email; QUsername username], findFirst_username users username)) /\
  (forall u1, List.NoDup (map u_email users) -> In u1 users -> u_email u1 = s ->
     login_lookup users s = ([QEmail s], Some u1)).
Proof.
  assert (Ht : forall x : string, x <> ""%string -> str_truthy (Some x) = true).
  { intros x Hx. unfold str_truthy. rewrite bool_decide_eq_false_2 by exact Hx. reflexivity. }
  unfold findByEmailOrUsername.
  split; [|split].
  - intros u Hu. rewrite !Ht by assumption. simpl. rewrite Hu. reflexivity.
  - intros Hu. rewrite !Ht by assumption. simpl. rewrite Hu. reflexivity.
  - intros u1 Hnd Hin Hem. unfold login_lookup, findByEmailOrUsername.
    rewrite !Ht by assumption. simpl.
    destruct (findFirst_email users s) as [u|] eqn:Hf.
    + f_equal. f_equal.
      unfold findFirst_email in Hf.
      apply List.find_some in Hf as [Hu Hb]. apply bool_decide_eq_true_1 in Hb.
      clear -Hnd Hin Hu Hb Hem.
      induction users as [|x xs IH]; [destruct Hin|].
      simpl in Hnd. apply NoDup_cons_iff in Hnd as [Hx Hnd].
      destruct Hin as [<-|Hin], Hu as [<-|Hu]; auto.
      * exfalso. apply Hx. rewrite Hem, <- Hb. apply in_map, Hu.
      * exfalso. apply Hx. rewrite Hb, <- Hem. apply in_map, Hin.
    + exfalso. unfold findFirst_email in Hf.
      eapply List.find_none in Hf; [|exact Hin].
      rewrite bool_decide_eq_true_2 in Hf by exact Hem. discriminate.
Qed.

Lemma findByEmailOrUsername_email_first_witness :
  let alice := {| u_id := 1; u_email := "bob"; u_username := "alice"; u_passwordHash := "h1" |} in
  let bob := {| u_id := 2; u_email := "b@x"; u_username := "bob"; u_passwordHash := "h2" |} in
  login_lookup [bob; alice] "bob" = ([QEmail "bob"], Some alice).
Proof.
  intros alice bob.
  apply (proj2 (proj2 (findByEmailOrUsername_email_first [bob; alice] "bob" "bob" "bob"
                          ltac:(discriminate) ltac:(discriminate) ltac:(discriminate)))).
  - simpl. repeat constructor; simpl; intuition discriminate.
  - simpl. auto.
  - reflexivity.
Defined.

(** ** [PasswordResetService.generateResetToken]: responses and expiry *)

(** C4 (code defect): with one registered user, the response for that user's email
    and the response for an unknown email differ in message text and in
    shape, and the first one carries the reset token, although the source
    comments say the same response is returned either way and the token
    must not be in the production response. *)
Theorem generateResetToken_response_leaks :
  let alice := {| u_id := 1; u_email := "alice@x.com"; u_username := "alice";
                  u_passwordHash := "h" |} in
  let db := {| db_users := [alice]; db_resets := ∅; db_nextId := 1; db_outbox := [] |} in
  let cfg := app_config (fun _ => None) in
  (generateResetToken cfg 0 "00ff" "alice@x.com" db).2
    = Ok {| message := msg_reset_sent; token := Some "00ff"%string; userId := Some 1 |} /\
  (generateResetToken cfg 0 "00ff" "nobody@x.com" db).2
    = Ok {| message := msg_reset_sent_if_exists; token := None; userId := None |} /\
  msg_reset_sent <> msg_reset_sent_if_exists.
Proof.
  split; [reflexivity|]. split; [reflexivity|]. discriminate.
Qed.

(** C5 (code defect): the service reads the key [reset_hours_key]
    (["auth.pßasswordResetExpiresInHours"]), which the application
    configuration never defines, so the configured
    [auth.passwordResetExpiresInHours] is ignored and every token expires
    one hour after creation; with [PASSWORD_RESET_EXPIRES_IN_HOURS=24] the
    stored token expires at [now + 1h], not [now + 24h]. *)
Theorem generateResetToken_ignores_configured_hours :
  (forall env, expiresInHours (app_config env) = 1) /\
  let env := fun v => if bool_decide (v = "PASSWORD_RESET_EXPIRES_IN_HOURS"%string)
                      then Some "24"%string else None in
  let alice := {| u_id := 1; u_email := "alice@x.com"; u_username := "alice";
                  u_passwordHash := "h" |} in
  let db := {| db_users := [alice]; db_resets := ∅; db_nextId := 1; db_outbox := [] |} in
  cfg_number (app_config env) "auth.passwordResetExpiresInHours" = Some (Num 24) /\
  db_resets (generateResetToken (app_config env) 0 "00ff" "alice@x.com" db).1 !! "00ff"%string
    = Some {| pr_id := 1; pr_userId := 1; pr_token := "00ff"; pr_expiresAt := 3600000 |}.
Proof.
  split.
  - intros env. reflexivity.
  - split; reflexivity.
Qed.

(** ** The password-reset flow keeps one reset token per user *)

Lemma one_live_sub (tl : Z) (m m' : gmap string PasswordResetToken) :
  (forall k r, m' !! k = Some r -> m !! k = Some r) ->
  one_live_reset_per_user tl m -> one_live_reset_per_user tl m'.
Proof. intros Hsub Hinv k1 k2 r1 r2 H1 H2. apply Hinv; auto. Qed.

Lemma one_live_filter (tl : Z) (P : string * PasswordResetToken -> Prop)
  {HP : forall x, Decision (P x)} (m : gmap string PasswordResetToken) :
  one_live_reset_per_user tl m -> one_live_reset_per_user tl (filter P m).
Proof.
  apply one_live_sub. intros k r Hk. apply map_lookup_filter_Some in Hk. tauto.
Qed.

Lemma one_live_purge_insert (tl : Z) (k : string) (r : PasswordResetToken)
  (m : gmap string PasswordResetToken) :
  one_live_reset_per_user tl m ->
  one_live_reset_per_user tl
    (<[k := r]> (filter (fun kr => pr_userId kr.2 <> pr_userId r) m)).
Proof.
  intros Hinv k1 k2 r1 r2 H1 H2 L1 L2 Hu.
  rewrite lookup_insert in H1, H2.
  destruct (decide (k = k1)) as [<-|Hk1], (decide (k = k2)) as [<-|Hk2]; auto.
  - injection H1 as <-. apply map_lookup_filter_Some in H2 as [_ H2]. simpl in H2.
    congruence.
  - injection H2 as <-. apply map_lookup_filter_Some in H1 as [_ H1]. simpl in H1.
    congruence.
  - apply map_lookup_filter_Some in H1 as [H1 _].
    apply map_lookup_filter_Some in H2 as [H2 _]. eauto.
Qed.

(** The stores [generateResetToken] can leave behind. *)
Lemma generateResetToken_resets (cfg : Config) (now : Z) (randomHex email : string)
  (db : ResetDB) :
  match (findByEmailOrUsername (db_users db) (Some email) None).2 with
  | None => db_resets (generateResetToken cfg now randomHex email db).1 = db_resets db
  | Some u =>
      let m1 := filter (fun kr => pr_userId kr.2 <> u_id u) (db_resets db) in
      db_resets (generateResetToken cfg now randomHex email db).1 = m1 \/
      exists e, reset_expiresAt cfg now = ValidDate e /\
      db_resets (generateResetToken cfg now randomHex email db).1
        = <[randomHex := {| pr_id := db_nextId db; pr_userId := u_id u;
                            pr_token := randomHex; pr_expiresAt := e |}]> m1
  end.
Proof.
  unfold generateResetToken, pr_deleteMany_user, pr_create, send_reset_mail; unfold_monad.
  destruct (findByEmailOrUsername (db_users db) (Some email) None).2 as [u|];
    [|reflexivity].
  simpl. destruct (reset_expiresAt cfg now) as [e|]; [|left; reflexivity].
  destruct (filter _ (db_resets db) !! randomHex); [left|right; exists e]; auto.
Qed.

Lemma pr_delete_id_resets (i : Z) (db : ResetDB) :
  db_resets (pr_delete_id i db).1 = db_resets db \/
  db_resets (pr_delete_id i db).1 = filter (fun kr => pr_id kr.2 <> i) (db_resets db).
Proof. unfold pr_delete_id. destruct (existsb _ _); [right|left]; reflexivity. Qed.

Lemma pr_delete_id_present (i : Z) (db : ResetDB) (t : string) (r : PasswordResetToken) :
  db_resets db !! t = Some r -> pr_id r = i ->
  pr_delete_id i db = (with_resets db (filter (fun kr => pr_id kr.2 <> i) (db_resets db)), Ok ()).
Proof.
  intros Ht Hi. unfold pr_delete_id.
  replace (existsb _ _) with true; [reflexivity|]. symmetry.
  apply existsb_exists. exists (t, r). split.
  - apply list_elem_of_In, elem_of_map_to_list, Ht.
  - simpl. apply bool_decide_eq_true_2, Hi.
Qed.

Lemma user_update_password_cases (i : Z) (h : string) (db : ResetDB) :
  (user_update_password i h db).2 = Ok () /\
  db_resets (user_update_password i h db).1 = db_resets db /\
  (forall u, In u (db_users (user_update_password i h db).1) -> u_id u = i ->
             u_passwordHash u = h) \/
  user_update_password i h db = (db, Err PrismaRecordNotFound).
Proof.
  unfold user_update_password. destruct (existsb _ _); [left|right; reflexivity].
  simpl. split; [reflexivity|]. split; [reflexivity|].
  intros u Hu Hi. apply in_map_iff in Hu as (u0 & <- & _).
  destruct (bool_decide (u_id u0 = i)) eqn:Hb; [reflexivity|].
  simpl in Hi. apply bool_decide_eq_false in Hb. contradiction.
Qed.

(** The stores [resetPassword] can leave behind: the table only loses rows. *)
Lemma resetPassword_shrinks (hashPassword : string -> string) (now : Z)
  (t newPassword : string) (db : ResetDB) :
  forall k r, db_resets (resetPassword hashPassword now t newPassword db).1 !! k = Some r ->
              db_resets db !! k = Some r.
Proof.
  intros k r0. unfold resetPassword, pr_findUnique; unfold_monad.
  destruct (db_resets db !! t) as [r|]; [|auto].
  assert (Hdel : forall i db', db_resets db' = db_resets db ->
            db_resets (pr_delete_id i db').1 !! k = Some r0 -> db_resets db !! k = Some r0).
  { intros i db' Heq. destruct (pr_delete_id_resets i db') as [-> | ->]; rewrite Heq; auto.
    intros Hk. apply map_lookup_filter_Some in Hk. tauto. }
  case_bool_decide.
  - destruct (pr_delete_id (pr_id r) db) as [s' [u|e]] eqn:Hd; simpl;
      intros Hk; apply (Hdel (pr_id r) db); rewrite ?Hd; auto.
  - destruct (user_update_password_cases (pr_userId r) (hashPassword newPassword) db)
      as [(Hok & Hres & _) | Herr].
    + destruct (user_update_password (pr_userId r) (hashPassword newPassword) db)
        as [db1 res1] eqn:Hu. simpl in Hok, Hres. subst res1.
      destruct (pr_delete_id (pr_id r) db1) as [s' [[]|e]] eqn:Hd; simpl; auto.
      intros Hk. apply (Hdel (pr_id r) db1 Hres). rewrite Hd. exact Hk.
    + rewrite Herr. simpl. auto.
Qed.

Lemma resetPassword_live (hashPassword : string -> string) (now : Z)
  (t newPassword : string) (db : ResetDB) (r : PasswordResetToken) :
  db_resets db !! t = Some r -> ~ pr_expiresAt r < now ->
  (exists db1,
      db_resets db1 = db_resets db /\
      (forall u, In u (db_users db1) -> u_id u = pr_userId r ->
                 u_passwordHash u = hashPassword newPassword) /\
      resetPassword hashPassword now t newPassword db
        = (with_resets db1 (filter (fun kr => pr_id kr.2 <> pr_id r) (db_resets db1)),
           Ok msg_reset_done)) \/
  resetPassword hashPassword now t newPassword db = (db, Err PrismaRecordNotFound).
Proof.
  intros Ht Hlive. unfold resetPassword, pr_findUnique; unfold_monad.
  rewrite Ht, bool_decide_eq_false_2 by exact Hlive. cbv zeta.
  destruct (user_update_password_cases (pr_userId r) (hashPassword newPassword) db)
    as [(Hok & Hres & Husers) | Herr].
  - left.
    destruct (user_update_password (pr_userId r) (hashPassword newPassword) db)
      as [db1 res1] eqn:Hu. simpl in Hok, Hres, Husers. subst res1.
    exists db1. split; [exact Hres|]. split; [exact Husers|].
    assert (Ht1 : db_resets db1 !! t = Some r) by (rewrite Hres; exact Ht).
    rewrite (pr_delete_id_present (pr_id r) db1 t r Ht1 eq_refl). reflexivity.
  - right. rewrite Herr. reflexivity.
Qed.

(** C7: every operation of the reset flow keeps "at most one live reset
    token per user" (for any reference time); after [generateResetToken]
    for a found user, the only token of that user left is the new one (all
    earlier ones were deleted); and [resetPassword] on a live token either
    updates the password, deletes the token and makes a second use fail
    [NotFound], or fails with the store unchanged (the update and the
    delete run in one transaction). *)
Theorem reset_flow_one_token_per_user (hashPassword : string -> string)
  (cfg : Config) (now : Z) (randomHex email t newPassword : string) (db : ResetDB) :
  (forall tl, one_live_reset_per_user tl (db_resets db) ->
     one_live_reset_per_user tl (db_resets (generateResetToken cfg now randomHex email db).1)) /\
  (forall tl, one_live_reset_per_user tl (db_resets db) ->
     one_live_reset_per_user tl
       (db_resets (resetPassword hashPassword now t newPassword db).1)) /\
  (forall u, (findByEmailOrUsername (db_users db) (Some email) None).2 = Some u ->
     forall k r, db_resets (generateResetToken cfg now randomHex email db).1 !! k = Some r ->
       pr_userId r = u_id u -> k = randomHex /\ pr_token r = randomHex) /\
  (forall r, db_resets db !! t = Some r -> ~ pr_expiresAt r < now ->
     ((resetPassword hashPassword now t newPassword db).2 = Ok msg_reset_done /\
      db_resets (resetPassword hashPassword now t newPassword db).1 !! t = None /\
      (forall u, In u (db_users (resetPassword hashPassword now t newPassword db).1) ->
                 u_id u = pr_userId r -> u_passwordHash u = hashPassword newPassword) /\
      (resetPassword hashPassword now t newPassword
         (resetPassword hashPassword now t newPassword db).1).2
        = Err (NotFound msg_reset_invalid)) \/
     (exists e, resetPassword hashPassword now t newPassword db = (db, Err e))).
Proof.
  split; [|split; [|split]].
  - intros tl Hinv. pose proof (generateResetToken_resets cfg now randomHex email db) as Hg.
    destruct (findByEmailOrUsername (db_users db) (Some email) None).2 as [u|];
      [|rewrite Hg; exact Hinv].
    destruct Hg as [-> | (e & _ & ->)].
    + apply one_live_filter, Hinv.
    + apply (one_live_purge_insert tl randomHex
               {| pr_id := db_nextId db; pr_userId := u_id u; pr_token := randomHex;
                  pr_expiresAt := e |}), Hinv.
  - intros tl Hinv. eapply one_live_sub; [|exact Hinv]. apply resetPassword_shrinks.
  - intros u Hu k r Hk Hr. pose proof (generateResetToken_resets cfg now randomHex email db) as Hg.
    rewrite Hu in Hg. simpl in Hg.
    destruct Hg as [Hg | (e & _ & Hg)]; rewrite Hg in Hk.
    + apply map_lookup_filter_Some in Hk as [_ Hk]. simpl in Hk. contradiction.
    + rewrite lookup_insert in Hk. destruct (decide (randomHex = k)) as [<-|Hne].
      * injection Hk as <-. auto.
      * apply map_lookup_filter_Some in Hk as [_ Hk]. simpl in Hk. contradiction.
  - intros r Ht Hlive.
    destruct (resetPassword_live hashPassword now t newPassword db r Ht Hlive)
      as [(db1 & Hres & Husers & ->) | ->]; [left|right; eauto].
    assert (Ht1 : db_resets db1 !! t = Some r) by (rewrite Hres; exact Ht).
    assert (Hgone : filter (fun kr => pr_id kr.2 <> pr_id r) (db_resets db1) !! t = None).
    { destruct (filter _ _ !! t) as [x|] eqn:Hx; [|reflexivity].
      apply map_lookup_filter_Some in Hx as [Hx Hp]. simpl in Hp.
      rewrite Ht1 in Hx. injection Hx as <-. contradiction. }
    simpl. split; [reflexivity|]. split; [exact Hgone|]. split; [exact Husers|].
    unfold resetPassword, pr_findUnique; unfold_monad. simpl. rewrite Hgone. reflexivity.
Qed.

Lemma reset_flow_one_token_per_user_witness :
  let alice := {| u_id := 1; u_email := "alice@x.com"; u_username := "alice";
                  u_passwordHash := "h" |} in
  let tok := {| pr_id := 1; pr_userId := 1; pr_token := "tok"; pr_expiresAt := 100 |} in
  let db0 := {| db_users := [alice]; db_resets := ∅; db_nextId := 1; db_outbox := [] |} in
  let db1 := {| db_users := [alice]; db_resets := {[ "tok"%string := tok ]};
                db_nextId := 2; db_outbox := [] |} in
  one_live_reset_per_user 0
    (db_resets (generateResetToken (app_config (fun _ => None)) 0 "00ff" "alice@x.com" db0).1) /\
  (((resetPassword (fun p => p) 0 "tok" "newpass" db1).2 = Ok msg_reset_done /\
    db_resets (resetPassword (fun p => p) 0 "tok" "newpass" db1).1 !! "tok"%string = None /\
    (forall u, In u (db_users (resetPassword (fun p => p) 0 "tok" "newpass" db1).1) ->
               u_id u = pr_userId tok -> u_passwordHash u = "newpass"%string) /\
    (resetPassword (fun p => p) 0 "tok" "newpass"
       (resetPassword (fun p => p) 0 "tok" "newpass" db1).1).2
      = Err (NotFound msg_reset_invalid)) \/
   (exists e, resetPassword (fun p => p) 0 "tok" "newpass" db1 = (db1, Err e))).
Proof.
  intros alice tok db0 db1. split.
  - apply (proj1 (reset_flow_one_token_per_user (fun p => p) (app_config (fun _ => None))
                    0 "00ff" "alice@x.com" "tok" "newpass" db0)).
    intros k1 k2 r1 r2 H1. simpl in H1. rewrite lookup_empty in H1. discriminate.
  - apply (proj2 (proj2 (proj2 (reset_flow_one_token_per_user (fun p => p)
                    (app_config (fun _ => None)) 0 "00ff" "alice@x.com" "tok" "newpass" db1)))).
    + reflexivity.
    + simpl. lia.
Defined.

(** * Further properties of the code *)

(** ** Refresh-token store *)

Lemma to_double_nonneg (n : Z) : 0 <= n -> forall m, to_double n = Fin m -> 0 <= m.
Proof.
  intros Hn m. unfold to_double. destruct (n <? 2 ^ 53).
  - intros H. injection H as <-. exact Hn.
  - cbv zeta. destruct (_ <? 2 ^ 1024); [|discriminate]. intros H. injection H as <-.
    apply Z.shiftl_nonneg.
    assert (0 <= Z.shiftr n (Z.log2 n - 52)) by (apply Z.shiftr_nonneg; lia).
    destruct (_ || _); lia.
Qed.

(** Rounding never brings a number of at least 2^53 below 2^53. *)
Lemma to_double_big (n m : Z) : 2 ^ 53 <= n -> to_double n = Fin m -> 2 ^ 53 <= m.
Proof.
  intros Hn. unfold to_double. rewrite (proj2 (Z.ltb_ge _ _) Hn). cbv zeta.
  assert (Hl : 53 <= Z.log2 n).
  { rewrite <- (Z.log2_pow2 53) by lia. apply Z.log2_le_mono, Hn. }
  destruct (Z.log2_spec n) as [Hlow _]; [lia|].
  remember (Z.log2 n - 52) as e eqn:He_def.
  assert (Hpe : 2 ^ Z.log2 n = 2 ^ e * 2 ^ 52).
  { rewrite <- Z.pow_add_r by lia. f_equal. lia. }
  assert (He2 : 2 <= 2 ^ e).
  { change 2 with (2 ^ 1) at 1. apply Z.pow_le_mono_r; lia. }
  change (2 ^ 52) with 4503599627370496 in Hpe.
  assert (Hq : 4503599627370496 <= Z.shiftr n e).
  { rewrite Z.shiftr_div_pow2 by lia. apply Z.div_le_lower_bound; lia. }
  remember (Z.shiftr n e) as q eqn:Hq_def.
  assert (Hgen : forall q', q <= q' ->
            (if Z.shiftl q' e <? 2 ^ 1024 then Fin (Z.shiftl q' e) else PosInf) = Fin m ->
            2 ^ 53 <= m).
  { intros q' Hq' H. destruct (_ <? _); [|discriminate]. injection H as <-.
    rewrite Z.shiftl_mul_pow2 by lia. change (2 ^ 53) with 9007199254740992. nia. }
  apply Hgen. destruct (_ || _); lia.
Qed.

Lemma js_mul_nonneg (x : jsint) (k : Z) :
  0 <= k -> (forall y, x = Fin y -> 0 <= y) -> forall z, js_mul x k = Fin z -> 0 <= z.
Proof.
  intros Hk Hx z. destruct x as [y|]; [|discriminate]. cbn [js_mul].
  apply to_double_nonneg. specialize (Hx y eq_refl). nia.
Qed.

Lemma parseJwtExpirationTime_nonneg (s : string) :
  forall z, parseJwtExpirationTime s = Fin z -> 0 <= z.
Proof.
  unfold parseJwtExpirationTime.
  destruct (match_ttl s) as [[ds u]|] eqn:Hm; [|intros z H; injection H as <-; lia].
  apply match_ttl_Some in Hm as (_ & Hd & _).
  assert (H0 : forall y, js_parseInt10 ds = Fin y -> 0 <= y).
  { unfold js_parseInt10. apply to_double_nonneg. rewrite parseInt10_value.
    apply digits_value_nonneg, Hd. }
  repeat match goal with |- context [if ?b then _ else _] => destruct b end;
    repeat (apply js_mul_nonneg; [lia|]); try exact H0;
    intros z H; injection H as <-; lia.
Qed.

(** A valid expiry date is never before the creation time: the TTL is not
    negative, and a sum rounded to 2^53 or more is past the Date range. *)
Lemma refresh_valid_le (cfg : Config) (now t : Z) :
  refresh_expiresAt cfg now = ValidDate t -> now <= t.
Proof.
  unfold refresh_expiresAt.
  destruct (parseJwtExpirationTime (refreshExpiresIn cfg)) as [z|] eqn:Hp;
    [|intros H; discriminate H].
  pose proof (parseJwtExpirationTime_nonneg _ z Hp) as Hz.
  cbn [js_mul]. destruct (to_double (z * 1000)) as [w|] eqn:Hw; [|intros H; discriminate H].
  pose proof (to_double_nonneg (z * 1000) ltac:(lia) w Hw) as Hw0.
  cbn [js_add]. destruct (to_double (now + w)) as [m|] eqn:Hm; [|intros H; discriminate H].
  unfold time_clip. destruct (Z.abs m <=? 8640000000000000) eqn:Hb;
    [|intros H; discriminate H].
  intros H. injection H as <-. apply Z.leb_le in Hb.
  destruct (Z.lt_ge_cases (now + w) (2 ^ 53)) as [Hs | Hs].
  - rewrite to_double_small in Hm by exact Hs. injection Hm as <-. lia.
  - apply to_double_big in Hm; [|exact Hs]. change (2 ^ 53) with 9007199254740992 in Hm.
    lia.
Qed.

Lemma refresh_expiresAt_exact (cfg : Config) (now z : Z) :
  parseJwtExpirationTime (refreshExpiresIn cfg) = Fin z -> 0 <= now ->
  now + z * 1000 <= 8640000000000000 ->
  refresh_expiresAt cfg now = ValidDate (now + z * 1000).
Proof.
  intros Hp Hn Hb. pose proof (parseJwtExpirationTime_nonneg _ z Hp).
  unfold refresh_expiresAt. rewrite Hp. cbn [js_mul].
  rewrite to_double_small by (change (2 ^ 53) with 9007199254740992; lia). cbn [js_add].
  rewrite to_double_small by (change (2 ^ 53) with 9007199254740992; lia).
  unfold time_clip. rewrite (proj2 (Z.leb_le _ _)) by lia. reflexivity.
Qed.

(** A new refresh token never expires before it is created; a TTL of [z]
    seconds gives the expiry [now + z * 1000] while that stays in the Date
    range; without a configured [jwt.refreshExpiresIn] (unset or empty)
    the token lives 7 days. *)
Theorem refresh_expiresAt_bounds (cfg : Config) (now : Z) :
  (forall t, refresh_expiresAt cfg now = ValidDate t -> now <= t) /\
  (forall z, parseJwtExpirationTime (refreshExpiresIn cfg) = Fin z -> 0 <= now ->
     now + z * 1000 <= 8640000000000000 ->
     refresh_expiresAt cfg now = ValidDate (now + z * 1000)) /\
  ((cfg_string cfg "jwt.refreshExpiresIn" = None \/
    cfg_string cfg "jwt.refreshExpiresIn" = Some ""%string) ->
   0 <= now <= 8640000000000000 - 604800000 ->
   refresh_expiresAt cfg now = ValidDate (now + 604800000)).
Proof.
  split; [|split].
  - intros t. apply refresh_valid_le.
  - intros z. apply refresh_expiresAt_exact.
  - intros Hc Hn.
    assert (Hp : parseJwtExpirationTime (refreshExpiresIn cfg) = Fin 604800).
    { unfold refreshExpiresIn. destruct Hc as [-> | ->]; reflexivity. }
    replace (now + 604800000) with (now + 604800 * 1000) by lia.
    apply refresh_expiresAt_exact; [exact Hp | lia | lia].
Qed.

Lemma refresh_expiresAt_bounds_witness :
  refresh_expiresAt {| cfg_string := fun _ => None; cfg_number := fun _ => None |} 0
    = ValidDate 604800000.
Proof.
  apply (proj2 (proj2 (refresh_expiresAt_bounds
                  {| cfg_string := fun _ => None; cfg_number := fun _ => None |} 0))).
  - left. reflexivity.
  - lia.
Defined.

(** [createRefreshToken] inserts an active record owned by the user when
    the expiry date is valid and the token string is new; the expiry is not
    before the creation time and the record passes [validateRefreshToken]
    until then. A token string already stored makes it fail on the unique
    constraint, and an Invalid Date (a TTL past the Date range) makes
    Prisma refuse the query; in both cases the table is unchanged. *)
Theorem createRefreshToken_validate (cfg : Config) (now : Z) (userId : Z)
  (token : string) (st : RTStore) :
  (forall e, refresh_expiresAt cfg now = ValidDate e -> st !! token = None ->
   now <= e /\
   exists r, createRefreshToken cfg now userId token st = (<[token := r]> st, Ok r) /\
     rt_userId r = userId /\ rt_isRevoked r = false /\ rt_expiresAt r = e /\
     forall now', now' <= e ->
       validateRefreshToken now' token (<[token := r]> st) = (<[token := r]> st, Ok r)) /\
  (forall e r0, refresh_expiresAt cfg now = ValidDate e -> st !! token = Some r0 ->
   createRefreshToken cfg now userId token st = (st, Err PrismaUniqueViolation)) /\
  (refresh_expiresAt cfg now = InvalidDate ->
   createRefreshToken cfg now userId token st = (st, Err PrismaValidationError)).
Proof.
  unfold createRefreshToken, rt_create. split; [|split].
  - intros e He Hnone. split; [apply (refresh_valid_le cfg), He|].
    rewrite He, Hnone. eexists. split; [reflexivity|].
    split; [reflexivity|]. split; [reflexivity|]. split; [reflexivity|].
    intros now' Hle. unfold validateRefreshToken, rt_findUnique; unfold_monad.
    rewrite lookup_insert_eq. simpl. rewrite bool_decide_eq_false_2 by lia. reflexivity.
  - intros e r0 He H. rewrite He, H. reflexivity.
  - intros He. rewrite He. reflexivity.
Qed.

Lemma createRefreshToken_validate_witness :
  createRefreshToken
    (app_config (fun k => if bool_decide (k = "JWT_REFRESH_EXPIRATION"%string)
                          then Some "300000y"%string else None))
    1700000000000 7 "t" ∅ = (∅, Err PrismaValidationError).
Proof.
  apply (proj2 (proj2 (createRefreshToken_validate
    (app_config (fun k => if bool_decide (k = "JWT_REFRESH_EXPIRATION"%string)
                          then Some "300000y"%string else None))
    1700000000000 7 "t" ∅))).
  vm_compute. reflexivity.
Defined.

(** [revokeRefreshToken] on an unknown token throws (P2025) and changes
    nothing; on a stored token it revokes exactly that record; revoking
    twice leaves the same table as revoking once. *)
Theorem revokeRefreshToken_spec (token : string) (st : RTStore) :
  (st !! token = None -> revokeRefreshToken token st = (st, Err PrismaRecordNotFound)) /\
  (forall r, st !! token = Some r ->
     revokeRefreshToken token st = (<[token := set_revoked r]> st, Ok ()) /\
     revokeRefreshToken token (<[token := set_revoked r]> st)
       = (<[token := set_revoked r]> st, Ok ())).
Proof.
  unfold revokeRefreshToken, rt_update_revoke. split.
  - intros H. rewrite H. reflexivity.
  - intros r H. rewrite H, lookup_insert_eq. simpl.
    rewrite insert_insert_eq. split; reflexivity.
Qed.

Lemma revokeRefreshToken_spec_witness :
  let r := {| rt_token := "t"; rt_userId := 1; rt_expiresAt := 5; rt_isRevoked := false |} in
  revokeRefreshToken "t" ∅ = (∅, Err PrismaRecordNotFound) /\
  revokeRefreshToken "t" {[ "t"%string := r ]}
    = (<[ "t"%string := set_revoked r ]> {[ "t"%string := r ]}, Ok ()).
Proof.
  intros r. split.
  - apply (proj1 (revokeRefreshToken_spec "t" ∅)). reflexivity.
  - apply (proj2 (revokeRefreshToken_spec "t" {[ "t"%string := r ]}) r). reflexivity.
Defined.

Lemma set_revoked_idem (r : RefreshToken) : set_revoked (set_revoked r) = set_revoked r.
Proof. destruct r; reflexivity. Qed.

Lemma validateRefreshToken_revoked (now : Z) (token : string) (st : RTStore)
  (r : RefreshToken) :
  st !! token = Some r -> rt_isRevoked r = true ->
  validateRefreshToken now token st =
    ((fun r' => if bool_decide (rt_userId r' = rt_userId r) then set_revoked r' else r')
       <$> st, Err (Unauthorized msg_rt_revoked)).
Proof.
  intros H Hr. unfold validateRefreshToken, rt_findUnique, revokeAllUserTokens,
    rt_updateMany_revoke; unfold_monad. rewrite H, Hr. reflexivity.
Qed.

(** After [logout(t)] of a stored token, presenting [t] again to
    [validateRefreshToken] fails "revoked" and revokes every record of
    the token's owner. *)
Theorem logout_then_reuse_revokes_owner (now : Z) (token : string) (st : RTStore)
  (r : RefreshToken) :
  st !! token = Some r ->
  (validateRefreshToken now token (logout token st).1).2 = Err (Unauthorized msg_rt_revoked) /\
  forall k r', st !! k = Some r' -> rt_userId r' = rt_userId r ->
    (validateRefreshToken now token (logout token st).1).1 !! k = Some (set_revoked r').
Proof.
  intros H.
  assert (Hst : (logout token st).1 = <[token := set_revoked r]> st).
  { unfold logout, revokeRefreshToken, rt_update_revoke; unfold_monad. rewrite H. reflexivity. }
  rewrite Hst.
  rewrite (validateRefreshToken_revoked now token _ (set_revoked r)) by
    (rewrite ?lookup_insert_eq; reflexivity).
  split; [reflexivity|]. intros k r' Hk Hu. simpl.
  rewrite lookup_fmap, lookup_insert.
  destruct (decide (token = k)) as [<-|Hne].
  - rewrite H in Hk. injection Hk as <-. simpl.
    rewrite bool_decide_eq_true_2 by reflexivity. rewrite set_revoked_idem. reflexivity.
  - rewrite Hk. simpl. rewrite bool_decide_eq_true_2 by exact Hu. reflexivity.
Qed.

Lemma logout_then_reuse_revokes_owner_witness :
  let r := {| rt_token := "t"; rt_userId := 1; rt_expiresAt := 5; rt_isRevoked := false |} in
  (validateRefreshToken 0 "t" (logout "t" {[ "t"%string := r ]}).1).2
    = Err (Unauthorized msg_rt_revoked).
Proof.
  intros r. refine (proj1 (logout_then_reuse_revokes_owner 0 "t" {[ "t"%string := r ]} r _)).
  reflexivity.
Defined.

(** [logoutFromAllDevices(u)] succeeds; afterwards every token of [u] fails
    [validateRefreshToken] as revoked, and the records of other users are
    untouched. *)
Theorem logoutFromAllDevices_spec (now : Z) (userId : Z) (st : RTStore) :
  (logoutFromAllDevices userId st).2
    = Ok {| success := true; logout_message := msg_logout_all |} /\
  (forall k r, st !! k = Some r -> rt_userId r = userId ->
     (validateRefreshToken now k (logoutFromAllDevices userId st).1).2
       = Err (Unauthorized msg_rt_revoked)) /\
  (forall k r, st !! k = Some r -> rt_userId r <> userId ->
     (logoutFromAllDevices userId st).1 !! k = Some r).
Proof.
  unfold logoutFromAllDevices, revokeAllUserTokens, rt_updateMany_revoke; unfold_monad.
  simpl. split; [reflexivity|]. split.
  - intros k r Hk Hu.
    rewrite (validateRefreshToken_revoked now k _ (set_revoked r)); [reflexivity| |reflexivity].
    rewrite lookup_fmap, Hk. simpl. rewrite bool_decide_eq_true_2 by exact Hu. reflexivity.
  - intros k r Hk Hu. rewrite lookup_fmap, Hk. simpl.
    rewrite bool_decide_eq_false_2 by exact Hu. reflexivity.
Qed.

Lemma logoutFromAllDevices_spec_witness :
  let a := {| rt_token := "a"; rt_userId := 1; rt_expiresAt := 50; rt_isRevoked := false |} in
  let b := {| rt_token := "b"; rt_userId := 2; rt_expiresAt := 50; rt_isRevoked := false |} in
  let st : RTStore := <[ "a"%string := a ]> {[ "b"%string := b ]} in
  (validateRefreshToken 0 "a" (logoutFromAllDevices 1 st).1).2
    = Err (Unauthorized msg_rt_revoked) /\
  (logoutFromAllDevices 1 st).1 !! "b"%string = Some b.
Proof.
  intros a b st. destruct (logoutFromAllDevices_spec 0 1 st) as (_ & H1 & H2). split.
  - apply (H1 "a"%string a); reflexivity.
  - apply H2; [reflexivity|discriminate].
Defined.

(** ** [AuthService.refreshTokens]: rotation and replay *)

Lemma refreshTokens_rotate_state (verifyRefresh : string -> option JwtPayload)
  (generateTokens : Z -> option TokenPair) (cfg : Config) (now : Z) (token : string)
  (st : RTStore) (p : JwtPayload) (r : RefreshToken) (toks : TokenPair) (e : Z) :
  verifyRefresh token = Some p -> st !! token = Some r -> rt_isRevoked r = false ->
  now <= rt_expiresAt r -> sub p = rt_userId r ->
  generateTokens (rt_userId r) = Some toks ->
  refreshToken toks <> token -> st !! refreshToken toks = None ->
  refresh_expiresAt cfg now = ValidDate e ->
  refreshTokens verifyRefresh generateTokens cfg now token st =
    (<[refreshToken toks := {| rt_token := refreshToken toks; rt_userId := rt_userId r;
                               rt_expiresAt := e; rt_isRevoked := false |}]>
       (<[token := set_revoked r]> st), Ok toks).
Proof.
  intros Hv Hst Hrev Hexp Hsub Hgen Hne Hfresh He.
  unfold refreshTokens, lift_option, validateRefreshToken, rt_findUnique,
    rotateRefreshToken, rt_update_revoke, rt_create; unfold_monad.
  rewrite Hv, Hst, Hrev, bool_decide_eq_false_2 by lia.
  rewrite bool_decide_eq_true_2 by exact Hsub. change (negb true) with false.
  rewrite Hgen. cbv beta iota. rewrite Hst. cbv beta iota. rewrite He.
  rewrite lookup_insert_ne by congruence. rewrite Hfresh. reflexivity.
Qed.

Lemma refreshTokens_revoked_state (verifyRefresh : string -> option JwtPayload)
  (generateTokens : Z -> option TokenPair) (cfg : Config) (now : Z) (token : string)
  (st : RTStore) (p : JwtPayload) (r : RefreshToken) :
  verifyRefresh token = Some p -> st !! token = Some r -> rt_isRevoked r = true ->
  refreshTokens verifyRefresh generateTokens cfg now token st =
    ((fun r' => if bool_decide (rt_userId r' = rt_userId r) then set_revoked r' else r')
       <$> st, Err (Unauthorized msg_invalid_refresh)).
Proof.
  intros Hv Hst Hrev.
  unfold refreshTokens, lift_option, validateRefreshToken, rt_findUnique,
    revokeAllUserTokens, rt_updateMany_revoke; unfold_monad.
  rewrite Hv, Hst, Hrev. reflexivity.
Qed.

(** A successful [refreshTokens] returns the newly signed pair, revokes
    the presented record and stores the new refresh token as an active
    record of the same user, expiring at the configured date [e], which
    then passes [validateRefreshToken]. *)
Theorem refreshTokens_rotates (verifyRefresh : string -> option JwtPayload)
  (generateTokens : Z -> option TokenPair) (cfg : Config) (now : Z) (token : string)
  (st : RTStore) (p : JwtPayload) (r : RefreshToken) (toks : TokenPair) (e : Z) :
  verifyRefresh token = Some p -> st !! token = Some r -> rt_isRevoked r = false ->
  now <= rt_expiresAt r -> sub p = rt_userId r ->
  generateTokens (rt_userId r) = Some toks ->
  refreshToken toks <> token -> st !! refreshToken toks = None ->
  refresh_expiresAt cfg now = ValidDate e ->
  let r_new := {| rt_token := refreshToken toks; rt_userId := rt_userId r;
                  rt_expiresAt := e; rt_isRevoked := false |} in
  let st' := <[refreshToken toks := r_new]> (<[token := set_revoked r]> st) in
  refreshTokens verifyRefresh generateTokens cfg now token st = (st', Ok toks) /\
  st' !! token = Some (set_revoked r) /\
  validateRefreshToken now (refreshToken toks) st' = (st', Ok r_new).
Proof.
  intros Hv Hst Hrev Hexp Hsub Hgen Hne Hfresh He r_new st'.
  split; [exact (refreshTokens_rotate_state _ _ cfg now token st p r toks e
                   Hv Hst Hrev Hexp Hsub Hgen Hne Hfresh He)|].
  split.
  - unfold st'. rewrite lookup_insert_ne by congruence. apply lookup_insert_eq.
  - unfold validateRefreshToken, rt_findUnique; unfold_monad.
    unfold st'. rewrite lookup_insert_eq. simpl.
    pose proof (refresh_valid_le cfg now e He) as Hle.
    rewrite bool_decide_eq_false_2 by lia. reflexivity.
Qed.

Lemma refreshTokens_rotates_witness :
  (refreshTokens (fun _ => Some {| sub := 1 |})
     (fun _ => Some {| accessToken := "a"; refreshToken := "n" |})
     (app_config (fun _ => None)) 0 "t"
     {[ "t"%string := {| rt_token := "t"; rt_userId := 1; rt_expiresAt := 100;
                         rt_isRevoked := false |} ]}).2
    = Ok {| accessToken := "a"; refreshToken := "n" |}.
Proof.
  pose proof (refreshTokens_rotates (fun _ => Some {| sub := 1 |})
     (fun _ => Some {| accessToken := "a"; refreshToken := "n" |})
     (app_config (fun _ => None)) 0 "t"
     {[ "t"%string := {| rt_token := "t"; rt_userId := 1; rt_expiresAt := 100;
                         rt_isRevoked := false |} ]}
     {| sub := 1 |}
     {| rt_token := "t"; rt_userId := 1; rt_expiresAt := 100; rt_isRevoked := false |}
     {| accessToken := "a"; refreshToken := "n" |} 604800000) as H.
  cbv zeta in H.
  destruct H as [H _]; [reflexivity|reflexivity|reflexivity|simpl; lia|reflexivity
                       |reflexivity|discriminate|reflexivity|vm_compute; reflexivity|].
  rewrite H. reflexivity.
Defined.

(** Presenting a refresh token again after it was rotated (its JWT still
    verifies) fails with the generic error and revokes every record of the
    user, including the one the rotation issued; a refresh with that newer
    token then fails too. *)
Theorem refreshTokens_replay_revokes_family (verifyRefresh : string -> option JwtPayload)
  (generateTokens : Z -> option TokenPair) (cfg : Config) (now : Z) (token : string)
  (st : RTStore) (p : JwtPayload) (r : RefreshToken) (toks : TokenPair) (e : Z) :
  verifyRefresh token = Some p -> st !! token = Some r -> rt_isRevoked r = false ->
  now <= rt_expiresAt r -> sub p = rt_userId r ->
  generateTokens (rt_userId r) = Some toks ->
  refreshToken toks <> token -> st !! refreshToken toks = None ->
  refresh_expiresAt cfg now = ValidDate e ->
  let r_new := {| rt_token := refreshToken toks; rt_userId := rt_userId r;
                  rt_expiresAt := e; rt_isRevoked := false |} in
  let st1 := (refreshTokens verifyRefresh generateTokens cfg now token st).1 in
  let st2 := (refreshTokens verifyRefresh generateTokens cfg now token st1).1 in
  (refreshTokens verifyRefresh generateTokens cfg now token st1).2
    = Err (Unauthorized msg_invalid_refresh) /\
  st2 !! refreshToken toks = Some (set_revoked r_new) /\
  (refreshTokens verifyRefresh generateTokens cfg now (refreshToken toks) st2).2
    = Err (Unauthorized msg_invalid_refresh).
Proof.
  intros Hv Hst Hrev Hexp Hsub Hgen Hne Hfresh He r_new st1 st2.
  assert (H1 : st1 = <[refreshToken toks := r_new]> (<[token := set_revoked r]> st)).
  { unfold st1. rewrite (refreshTokens_rotate_state _ _ cfg now token st p r toks e
                           Hv Hst Hrev Hexp Hsub Hgen Hne Hfresh He). reflexivity. }
  assert (Hold : st1 !! token = Some (set_revoked r)).
  { rewrite H1, lookup_insert_ne by congruence. apply lookup_insert_eq. }
  pose proof (refreshTokens_revoked_state verifyRefresh generateTokens cfg now token st1 p
                (set_revoked r) Hv Hold eq_refl) as H2.
  assert (Hnew : st2 !! refreshToken toks = Some (set_revoked r_new)).
  { unfold st2. rewrite H2. simpl. rewrite lookup_fmap, H1, lookup_insert_eq. simpl.
    rewrite bool_decide_eq_true_2 by reflexivity. reflexivity. }
  split; [rewrite H2; reflexivity|]. split; [exact Hnew|].
  destruct (verifyRefresh (refreshToken toks)) as [p'|] eqn:Hv'.
  - rewrite (refreshTokens_revoked_state verifyRefresh generateTokens cfg now
               (refreshToken toks) st2 p' _ Hv' Hnew eq_refl). reflexivity.
  - unfold refreshTokens, lift_option; unfold_monad. rewrite Hv'. reflexivity.
Qed.

Lemma refreshTokens_replay_revokes_family_witness :
  let vR := fun _ : string => Some {| sub := 1 |} in
  let gT := fun _ : Z => Some {| accessToken := "a"; refreshToken := "n" |} in
  let cfg := app_config (fun _ => None) in
  let st : RTStore := {[ "t"%string := {| rt_token := "t"; rt_userId := 1;
                                          rt_expiresAt := 100; rt_isRevoked := false |} ]} in
  (refreshTokens vR gT cfg 0 "t" (refreshTokens vR gT cfg 0 "t" st).1).2
    = Err (Unauthorized msg_invalid_refresh).
Proof.
  intros vR gT cfg st.
  pose proof (refreshTokens_replay_revokes_family vR gT cfg 0 "t" st {| sub := 1 |}
     {| rt_token := "t"; rt_userId := 1; rt_expiresAt := 100; rt_isRevoked := false |}
     {| accessToken := "a"; refreshToken := "n" |} 604800000) as H.
  cbv zeta in H.
  destruct H as [H _]; [reflexivity|reflexivity|reflexivity|simpl; lia|reflexivity
                       |reflexivity|discriminate|reflexivity|vm_compute; reflexivity|].
  exact H.
Defined.

(** When the configured TTL puts the new expiry past the Date range, a
    refresh with an otherwise valid token fails with the generic error and
    the store is exactly as before: the transaction rolls back the
    revocation of the presented record. *)
Theorem refreshTokens_invalid_expiry (verifyRefresh : string -> option JwtPayload)
  (generateTokens : Z -> option TokenPair) (cfg : Config) (now : Z) (token : string)
  (st : RTStore) (p : JwtPayload) (r : RefreshToken) (toks : TokenPair) :
  verifyRefresh token = Some p -> st !! token = Some r -> rt_isRevoked r = false ->
  now <= rt_expiresAt r -> sub p = rt_userId r ->
  generateTokens (rt_userId r) = Some toks ->
  refresh_expiresAt cfg now = InvalidDate ->
  refreshTokens verifyRefresh generateTokens cfg now token st
    = (st, Err (Unauthorized msg_invalid_refresh)).
Proof.
  intros Hv Hst Hrev Hexp Hsub Hgen He.
  unfold refreshTokens, lift_option, validateRefreshToken, rt_findUnique,
    rotateRefreshToken, rt_update_revoke, rt_create; unfold_monad.
  rewrite Hv, Hst, Hrev, bool_decide_eq_false_2 by lia.
  rewrite bool_decide_eq_true_2 by exact Hsub. change (negb true) with false.
  rewrite Hgen. cbv beta iota. rewrite Hst. cbv beta iota. rewrite He. reflexivity.
Qed.

Lemma refreshTokens_invalid_expiry_witness :
  let st : RTStore := {[ "t"%string := {| rt_token := "t"; rt_userId := 1;
                                          rt_expiresAt := 1800000000000;
                                          rt_isRevoked := false |} ]} in
  refreshTokens (fun _ => Some {| sub := 1 |})
    (fun _ => Some {| accessToken := "a"; refreshToken := "n" |})
    (app_config (fun k => if bool_decide (k = "JWT_REFRESH_EXPIRATION"%string)
                          then Some "300000y"%string else None))
    1700000000000 "t" st = (st, Err (Unauthorized msg_invalid_refresh)).
Proof.
  intros st.
  refine (refreshTokens_invalid_expiry _ _ _ 1700000000000 "t" st {| sub := 1 |}
     {| rt_token := "t"; rt_userId := 1; rt_expiresAt := 1800000000000;
        rt_isRevoked := false |}
     {| accessToken := "a"; refreshToken := "n" |} _ _ _ _ _ _ _).
  - reflexivity.
  - reflexivity.
  - reflexivity.
  - simpl. lia.
  - reflexivity.
  - reflexivity.
  - vm_compute. reflexivity.
Defined.

(** [refreshTokens] with a refresh JWT that does not verify fails with the
    generic error and leaves the store untouched.  With a verified JWT
    whose store record is revoked it fails with the generic error as well,
    and the revocation of all the owner's records done on the way is kept
    (the [catch] does not undo it), while other users' records are
    unchanged. *)
Theorem refreshTokens_revoked_token (verifyRefresh : string -> option JwtPayload)
  (generateTokens : Z -> option TokenPair) (cfg : Config) (now : Z) (token : string)
  (st : RTStore) :
  (verifyRefresh token = None ->
   refreshTokens verifyRefresh generateTokens cfg now token st
     = (st, Err (Unauthorized msg_invalid_refresh))) /\
  (forall p r, verifyRefresh token = Some p -> st !! token = Some r ->
   rt_isRevoked r = true ->
   (refreshTokens verifyRefresh generateTokens cfg now token st).2
     = Err (Unauthorized msg_invalid_refresh) /\
   (forall k r', st !! k = Some r' -> rt_userId r' = rt_userId r ->
      (refreshTokens verifyRefresh generateTokens cfg now token st).1 !! k
        = Some (set_revoked r')) /\
   (forall k r', st !! k = Some r' -> rt_userId r' <> rt_userId r ->
      (refreshTokens verifyRefresh generateTokens cfg now token st).1 !! k = Some r')).
Proof.
  split.
  - intros Hv. unfold refreshTokens, lift_option; unfold_monad. rewrite Hv. reflexivity.
  - intros p r Hv Hst Hrev.
    rewrite (refreshTokens_revoked_state verifyRefresh generateTokens cfg now token st p r
               Hv Hst Hrev). simpl.
    split; [reflexivity|]. split.
    + intros k r' Hk Hu. rewrite lookup_fmap, Hk. simpl.
      rewrite bool_decide_eq_true_2 by exact Hu. reflexivity.
    + intros k r' Hk Hu. rewrite lookup_fmap, Hk. simpl.
      rewrite bool_decide_eq_false_2 by exact Hu. reflexivity.
Qed.

Lemma refreshTokens_revoked_token_witness :
  let a := {| rt_token := "a"; rt_userId := 1; rt_expiresAt := 50; rt_isRevoked := true |} in
  let b := {| rt_token := "b"; rt_userId := 1; rt_expiresAt := 50; rt_isRevoked := false |} in
  let st : RTStore := <[ "a"%string := a ]> {[ "b"%string := b ]} in
  (refreshTokens (fun _ => Some {| sub := 1 |}) (fun _ => None)
     (app_config (fun _ => None)) 0 "a" st).1 !! "b"%string = Some (set_revoked b).
Proof.
  intros a b st.
  destruct (proj2 (refreshTokens_revoked_token (fun _ => Some {| sub := 1 |}) (fun _ => None)
                     (app_config (fun _ => None)) 0 "a" st) {| sub := 1 |} a)
    as (_ & H & _); [reflexivity|reflexivity|reflexivity|].
  apply H; reflexivity.
Defined.

(** ** [AuthService.login] *)

(** [login] answers an unknown identifier and a wrong password with the
    same [Unauthorized] error, and in both cases changes nothing. *)
Theorem login_failure_uniform (verifyPassword : string -> string -> bool)
  (generateTokens : Z -> option TokenPair) (cfg : Config) (now : Z)
  (usernameOrEmail password : string) (db : AuthDB) :
  ((login_lookup (adb_users db) usernameOrEmail).2 = None ->
   login verifyPassword generateTokens cfg now usernameOrEmail password db
     = (db, Err (Unauthorized msg_bad_credentials))) /\
  (forall u, (login_lookup (adb_users db) usernameOrEmail).2 = Some u ->
   verifyPassword password (u_passwordHash u) = false ->
   login verifyPassword generateTokens cfg now usernameOrEmail password db
     = (db, Err (Unauthorized msg_bad_credentials))).
Proof.
  unfold login; unfold_monad. split.
  - intros H. rewrite H. reflexivity.
  - intros u H Hp. rewrite H, Hp. reflexivity.
Qed.

Lemma login_failure_uniform_witness :
  let alice := {| u_id := 1; u_email := "alice@x.com"; u_username := "alice";
                  u_passwordHash := "secret" |} in
  let db := {| adb_users := [alice]; adb_tokens := ∅ |} in
  let vP := fun pw h => bool_decide (pw = h :> string) in
  let gT := fun _ : Z => Some {| accessToken := "a"; refreshToken := "n" |} in
  login vP gT (app_config (fun _ => None)) 0 "bob" "secret" db
    = login vP gT (app_config (fun _ => None)) 0 "alice" "wrong" db.
Proof.
  intros alice db vP gT.
  destruct (login_failure_uniform vP gT (app_config (fun _ => None)) 0 "bob" "secret" db)
    as [H1 _].
  destruct (login_failure_uniform vP gT (app_config (fun _ => None)) 0 "alice" "wrong" db)
    as [_ H2].
  rewrite H1 by reflexivity. rewrite (H2 alice) by reflexivity. reflexivity.
Defined.

(** A successful [login] returns the user without the password hash and
    the signed pair, and stores the refresh token as an active record of
    the user, expiring at the configured date, that passes
    [validateRefreshToken]; if that token string is already stored,
    [login] fails on the unique constraint and changes nothing; if the
    configured TTL puts the expiry past the Date range, Prisma refuses the
    insert and [login] fails, again changing nothing. *)
Theorem login_success (verifyPassword : string -> string -> bool)
  (generateTokens : Z -> option TokenPair) (cfg : Config) (now : Z)
  (usernameOrEmail password : string) (db : AuthDB) (u : User) (toks : TokenPair) :
  (login_lookup (adb_users db) usernameOrEmail).2 = Some u ->
  verifyPassword password (u_passwordHash u) = true ->
  generateTokens (u_id u) = Some toks ->
  (forall e, refresh_expiresAt cfg now = ValidDate e ->
   let r := {| rt_token := refreshToken toks; rt_userId := u_id u;
               rt_expiresAt := e; rt_isRevoked := false |} in
   (adb_tokens db !! refreshToken toks = None ->
    login verifyPassword generateTokens cfg now usernameOrEmail password db
      = ({| adb_users := adb_users db;
            adb_tokens := <[refreshToken toks := r]> (adb_tokens db) |},
         Ok {| lr_user := strip_password u; lr_accessToken := accessToken toks;
               lr_refreshToken := refreshToken toks |}) /\
    validateRefreshToken now (refreshToken toks) (<[refreshToken toks := r]> (adb_tokens db))
      = (<[refreshToken toks := r]> (adb_tokens db), Ok r)) /\
   (forall r0, adb_tokens db !! refreshToken toks = Some r0 ->
    login verifyPassword generateTokens cfg now usernameOrEmail password db
      = (db, Err PrismaUniqueViolation))) /\
  (refresh_expiresAt cfg now = InvalidDate ->
   login verifyPassword generateTokens cfg now usernameOrEmail password db
     = (db, Err PrismaValidationError)).
Proof.
  intros Hl Hp Hg.
  unfold login, lift_option, on_tokens, createRefreshToken, rt_create; unfold_monad.
  rewrite Hl, Hp, Hg. change (negb true) with false. cbv beta iota. split.
  - intros e He. cbv zeta. rewrite He. split.
    + intros Hn. rewrite Hn. split; [reflexivity|].
      unfold validateRefreshToken, rt_findUnique; unfold_monad.
      rewrite lookup_insert_eq. simpl.
      pose proof (refresh_valid_le cfg now e He).
      rewrite bool_decide_eq_false_2 by lia. reflexivity.
    + intros r0 H. rewrite H. destruct db. reflexivity.
  - intros He. rewrite He. destruct db. reflexivity.
Qed.

Lemma login_success_witness :
  let alice := {| u_id := 1; u_email := "alice@x.com"; u_username := "alice";
                  u_passwordHash := "secret" |} in
  let db := {| adb_users := [alice]; adb_tokens := ∅ |} in
  (login (fun pw h => bool_decide (pw = h :> string))
     (fun _ => Some {| accessToken := "a"; refreshToken := "n" |})
     (app_config (fun _ => None)) 0 "alice" "secret" db).2
    = Ok {| lr_user := strip_password alice; lr_accessToken := "a"; lr_refreshToken := "n" |} /\
  login (fun pw h => bool_decide (pw = h :> string))
     (fun _ => Some {| accessToken := "a"; refreshToken := "n" |})
     (app_config (fun k => if bool_decide (k = "JWT_REFRESH_EXPIRATION"%string)
                           then Some "300000y"%string else None))
     1700000000000 "alice" "secret" db = (db, Err PrismaValidationError).
Proof.
  intros alice db. split.
  - pose proof (login_success (fun pw h => bool_decide (pw = h :> string))
       (fun _ => Some {| accessToken := "a"; refreshToken := "n" |})
       (app_config (fun _ => None)) 0 "alice" "secret" db alice
       {| accessToken := "a"; refreshToken := "n" |}) as H.
    destruct H as [H _]; [reflexivity|reflexivity|reflexivity|].
    destruct (H 604800000) as [H1 _]; [vm_compute; reflexivity|].
    cbv zeta in H1. destruct H1 as [H1 _]; [reflexivity|]. rewrite H1. reflexivity.
  - pose proof (login_success (fun pw h => bool_decide (pw = h :> string))
       (fun _ => Some {| accessToken := "a"; refreshToken := "n" |})
       (app_config (fun k => if bool_decide (k = "JWT_REFRESH_EXPIRATION"%string)
                             then Some "300000y"%string else None))
       1700000000000 "alice" "secret" db alice
       {| accessToken := "a"; refreshToken := "n" |}) as H.
    destruct H as [_ H]; [reflexivity|reflexivity|reflexivity|].
    apply H. vm_compute. reflexivity.
Defined.

(** ** [PasswordResetService] and [PasswordResetController] *)

Lemma findByEmail_only_None (users : list User) (email : string) :
  findFirst_email users email = None \/ email = ""%string ->
  (findByEmailOrUsername users (Some email) None).2 = None.
Proof.
  unfold findByEmailOrUsername, str_truthy. intros [H | ->].
  - case_bool_decide; simpl; [reflexivity|]. rewrite H. reflexivity.
  - rewrite bool_decide_eq_true_2 by reflexivity. reflexivity.
Qed.

Lemma findByEmail_only_Some (users : list User) (email : string) (u : User) :
  email <> ""%string -> findFirst_email users email = Some u ->
  (findByEmailOrUsername users (Some email) None).2 = Some u.
Proof.
  unfold findByEmailOrUsername, str_truthy. intros Hne H.
  rewrite bool_decide_eq_false_2 by exact Hne. simpl. rewrite H. reflexivity.
Qed.

(** [generateResetToken] for an email no user has (or the empty string)
    deletes nothing, stores no token and sends no mail: the database is
    left exactly as it was. *)
Theorem generateResetToken_unknown_email (cfg : Config) (now : Z)
  (randomHex email : string) (db : ResetDB) :
  findFirst_email (db_users db) email = None \/ email = ""%string ->
  generateResetToken cfg now randomHex email db
    = (db, Ok {| message := msg_reset_sent_if_exists; token := None; userId := None |}).
Proof.
  intros H. unfold generateResetToken; unfold_monad.
  rewrite (findByEmail_only_None _ _ H). reflexivity.
Qed.

Lemma generateResetToken_unknown_email_witness :
  let alice := {| u_id := 1; u_email := "alice@x.com"; u_username := "alice";
                  u_passwordHash := "h" |} in
  let db := {| db_users := [alice]; db_resets := ∅; db_nextId := 1; db_outbox := [] |} in
  (generateResetToken (app_config (fun _ => None)) 0 "00ff" "nobody@x.com" db).1 = db.
Proof.
  intros alice db.
  rewrite (generateResetToken_unknown_email (app_config (fun _ => None)) 0 "00ff"
             "nobody@x.com" db); [reflexivity|].
  left. reflexivity.
Defined.

(** [generateResetToken] for the email of a user, with a token string not
    already stored: the user's earlier reset tokens are deleted, the new
    token is stored with the next id, exactly one mail is queued, to that
    user's address with the token and the username, and the token then
    passes [validateResetToken] until its expiry [e]. *)
Theorem generateResetToken_known_email (cfg : Config) (now : Z)
  (randomHex email : string) (db : ResetDB) (u : User) (e : Z) :
  email <> ""%string -> findFirst_email (db_users db) email = Some u ->
  db_resets db !! randomHex = None -> reset_expiresAt cfg now = ValidDate e ->
  let r := {| pr_id := db_nextId db; pr_userId := u_id u; pr_token := randomHex;
              pr_expiresAt := e |} in
  let db' := {| db_users := db_users db;
                db_resets := <[randomHex := r]>
                               (filter (fun kr => pr_userId kr.2 <> u_id u) (db_resets db));
                db_nextId := db_nextId db + 1;
                db_outbox := db_outbox db ++ [(u_email u, randomHex, u_username u)] |} in
  generateResetToken cfg now randomHex email db
    = (db', Ok {| message := msg_reset_sent; token := Some randomHex;
                  userId := Some (u_id u) |}) /\
  u_email u = email /\
  (forall now', now' <= e -> validateResetToken now' randomHex db' = true).
Proof.
  intros Hne Hf Hfresh He r db'.
  split; [|split].
  - unfold generateResetToken, pr_deleteMany_user, pr_create, send_reset_mail; unfold_monad.
    rewrite (findByEmail_only_Some _ _ u Hne Hf). simpl. rewrite He.
    rewrite map_lookup_filter_None_2 by (left; exact Hfresh). reflexivity.
  - unfold findFirst_email in Hf. apply List.find_some in Hf as [_ Hb].
    apply bool_decide_eq_true_1 in Hb. exact Hb.
  - intros now' Hle. unfold validateResetToken. simpl. rewrite lookup_insert_eq.
    simpl. rewrite bool_decide_eq_false_2 by lia. reflexivity.
Qed.

Lemma generateResetToken_known_email_witness :
  let alice := {| u_id := 1; u_email := "alice@x.com"; u_username := "alice";
                  u_passwordHash := "h" |} in
  let db := {| db_users := [alice]; db_resets := ∅; db_nextId := 1; db_outbox := [] |} in
  db_outbox (generateResetToken (app_config (fun _ => None)) 0 "00ff" "alice@x.com" db).1
    = [("alice@x.com", "00ff", "alice")]%string.
Proof.
  intros alice db.
  pose proof (generateResetToken_known_email (app_config (fun _ => None)) 0 "00ff"
                "alice@x.com" db alice 3600000) as H.
  cbv zeta in H.
  destruct H as [H _]; [discriminate|reflexivity|reflexivity|reflexivity|].
  rewrite H. reflexivity.
Defined.

(** [generateResetToken] for the email of a user when the configured
    number of hours puts the expiry past the Date range: the user's earlier
    reset tokens are deleted (the calls run outside a transaction), then
    Prisma refuses the Invalid Date, so no token is stored and no mail is
    queued, and the request fails. *)
Theorem generateResetToken_invalid_expiry (cfg : Config) (now : Z)
  (randomHex email : string) (db : ResetDB) (u : User) :
  email <> ""%string -> findFirst_email (db_users db) email = Some u ->
  reset_expiresAt cfg now = InvalidDate ->
  generateResetToken cfg now randomHex email db
    = (with_resets db (filter (fun kr => pr_userId kr.2 <> u_id u) (db_resets db)),
       Err PrismaValidationError).
Proof.
  intros Hne Hf He.
  unfold generateResetToken, pr_deleteMany_user, pr_create; unfold_monad.
  rewrite (findByEmail_only_Some _ _ u Hne Hf). simpl. rewrite He. reflexivity.
Qed.

Lemma generateResetToken_invalid_expiry_witness :
  let alice := {| u_id := 1; u_email := "alice@x.com"; u_username := "alice";
                  u_passwordHash := "h" |} in
  let old := {| pr_id := 1; pr_userId := 1; pr_token := "aa"; pr_expiresAt := 5 |} in
  let db := {| db_users := [alice]; db_resets := {[ "aa"%string := old ]};
               db_nextId := 2; db_outbox := [] |} in
  let cfg := {| cfg_string := fun _ => None;
                cfg_number := fun k => if bool_decide (k = reset_hours_key)
                                       then Some (Num 3000000000) else None |} in
  generateResetToken cfg 0 "00ff" "alice@x.com" db
    = (with_resets db (filter (fun kr => pr_userId kr.2 <> 1) (db_resets db)),
       Err PrismaValidationError).
Proof.
  intros alice old db cfg.
  apply (generateResetToken_invalid_expiry cfg 0 "00ff" "alice@x.com" db alice).
  - discriminate.
  - reflexivity.
  - vm_compute. reflexivity.
Defined.

(** [resetPassword] with a token that is not stored fails [NotFound] and
    changes nothing; with an expired token it deletes that token, fails
    [BadRequest] without touching any password, and a second attempt with
    the same token then fails [NotFound]. *)
Theorem resetPassword_unknown_or_expired (hashPassword : string -> string) (now : Z)
  (t newPassword : string) (db : ResetDB) :
  (db_resets db !! t = None ->
   resetPassword hashPassword now t newPassword db = (db, Err (NotFound msg_reset_invalid))) /\
  (forall r, db_resets db !! t = Some r -> pr_expiresAt r < now ->
   let db' := with_resets db (filter (fun kr => pr_id kr.2 <> pr_id r) (db_resets db)) in
   resetPassword hashPassword now t newPassword db = (db', Err (BadRequest msg_reset_expired)) /\
   resetPassword hashPassword now t newPassword db' = (db', Err (NotFound msg_reset_invalid))).
Proof.
  split.
  - intros H. unfold resetPassword, pr_findUnique; unfold_monad. rewrite H. reflexivity.
  - intros r Ht Hexp db'.
    assert (Hgone : db_resets db' !! t = None).
    { simpl. destruct (filter _ _ !! t) as [x|] eqn:Hx; [|reflexivity].
      apply map_lookup_filter_Some in Hx as [Hx Hp]. simpl in Hp.
      rewrite Ht in Hx. injection Hx as <-. contradiction. }
    split.
    + unfold resetPassword, pr_findUnique; unfold_monad.
      rewrite Ht, bool_decide_eq_true_2 by exact Hexp.
      rewrite (pr_delete_id_present (pr_id r) db t r Ht eq_refl). reflexivity.
    + unfold resetPassword, pr_findUnique; unfold_monad. rewrite Hgone. reflexivity.
Qed.

Lemma resetPassword_unknown_or_expired_witness :
  let alice := {| u_id := 1; u_email := "alice@x.com"; u_username := "alice";
                  u_passwordHash := "h" |} in
  let tok := {| pr_id := 1; pr_userId := 1; pr_token := "tok"; pr_expiresAt := 100 |} in
  let db := {| db_users := [alice]; db_resets := {[ "tok"%string := tok ]};
               db_nextId := 2; db_outbox := [] |} in
  (resetPassword (fun p => p) 200 "tok" "newpass" db).2 = Err (BadRequest msg_reset_expired).
Proof.
  intros alice tok db.
  pose proof (proj2 (resetPassword_unknown_or_expired (fun p => p) 200 "tok" "newpass" db)
                tok) as H.
  cbv zeta in H. destruct H as [H _]; [reflexivity|simpl; lia|]. rewrite H. reflexivity.
Defined.

(** [validateResetToken] agrees with [resetPassword]: a token it rejects
    makes [resetPassword] fail [NotFound] or [BadRequest] with every
    password unchanged; a token it accepts makes [resetPassword] succeed,
    or fail with the database unchanged when the token's user row is
    missing. *)
Theorem validateResetToken_agrees (hashPassword : string -> string) (now : Z)
  (t newPassword : string) (db : ResetDB) :
  (validateResetToken now t db = false ->
   ((resetPassword hashPassword now t newPassword db).2 = Err (NotFound msg_reset_invalid) \/
    (resetPassword hashPassword now t newPassword db).2 = Err (BadRequest msg_reset_expired)) /\
   db_users (resetPassword hashPassword now t newPassword db).1 = db_users db) /\
  (validateResetToken now t db = true ->
   (resetPassword hashPassword now t newPassword db).2 = Ok msg_reset_done \/
   resetPassword hashPassword now t newPassword db = (db, Err PrismaRecordNotFound)).
Proof.
  unfold validateResetToken. destruct (db_resets db !! t) as [r|] eqn:Ht.
  - split.
    + intros Hv. apply negb_false_iff, bool_decide_eq_true_1 in Hv.
      unfold resetPassword, pr_findUnique; unfold_monad.
      rewrite Ht, bool_decide_eq_true_2 by exact Hv.
      rewrite (pr_delete_id_present (pr_id r) db t r Ht eq_refl).
      split; [right; reflexivity|reflexivity].
    + intros Hv. apply negb_true_iff, bool_decide_eq_false_1 in Hv.
      destruct (resetPassword_live hashPassword now t newPassword db r Ht Hv)
        as [(db1 & _ & _ & ->) | ->]; [left|right]; reflexivity.
  - split; [|discriminate].
    intros _. unfold resetPassword, pr_findUnique; unfold_monad. rewrite Ht.
    split; [left; reflexivity|reflexivity].
Qed.

Lemma validateResetToken_agrees_witness :
  let alice := {| u_id := 1; u_email := "alice@x.com"; u_username := "alice";
                  u_passwordHash := "h" |} in
  let tok := {| pr_id := 1; pr_userId := 1; pr_token := "tok"; pr_expiresAt := 100 |} in
  let db := {| db_users := [alice]; db_resets := {[ "tok"%string := tok ]};
               db_nextId := 2; db_outbox := [] |} in
  db_users (resetPassword (fun p => p) 200 "tok" "newpass" db).1 = [alice].
Proof.
  intros alice tok db.
  refine (proj2 (proj1 (validateResetToken_agrees (fun p => p) 200 "tok" "newpass" db) _)).
  reflexivity.
Defined.

(** The controller rejects a missing password and one shorter than 8
    characters ([length] in UTF-16 code units) with [BadRequest] before any
    database access; a password of 8 or more characters goes to
    [resetPassword] unchanged. *)
Theorem controller_resetPassword_length (hashPassword : string -> string) (now : Z)
  (t : string) :
  (forall db, controller_resetPassword hashPassword now t None db
                = (db, Err (BadRequest msg_password_too_short))) /\
  (forall p db, (js_length p < 8)%nat ->
     controller_resetPassword hashPassword now t (Some p) db
       = (db, Err (BadRequest msg_password_too_short))) /\
  (forall p db, (8 <= js_length p)%nat ->
     controller_resetPassword hashPassword now t (Some p) db
       = resetPassword hashPassword now t p db).
Proof.
  unfold controller_resetPassword. split; [reflexivity|]. split.
  - intros p db Hl. apply Nat.ltb_lt in Hl. rewrite Hl, orb_true_r. reflexivity.
  - intros p db Hl. case_bool_decide as Hp; [subst p; unfold js_length in Hl; simpl in Hl; lia|].
    replace (js_length p <? 8)%nat with false by (symmetry; apply Nat.ltb_ge; exact Hl).
    reflexivity.
Qed.

Lemma controller_resetPassword_length_witness :
  let db := {| db_users := []; db_resets := ∅; db_nextId := 1; db_outbox := [] |} in
  controller_resetPassword (fun p => p) 0 "tok" (Some "パスワードです"%string) db
    = (db, Err (BadRequest msg_password_too_short)).
Proof.
  intros db. apply (proj1 (proj2 (controller_resetPassword_length (fun p => p) 0 "tok"))).
  vm_compute. lia.
Defined.

(** ** [RolesGuard] behind [JwtStrategy.validate] *)

(** For a request authenticated by [JwtStrategy.validate] (which sets
    [userId] to the token's [sub]) on a route that requires roles, the
    guard rejects a token whose [sub] is 0 as having no user id; for any
    other [sub] it never fails [Unauthorized]: it allows exactly when a
    required role is assigned to [sub], and fails [Forbidden] otherwise. *)
Theorem canActivate_jwt (userRoles : list UserRoleRow) (rs : list string)
  (p : JwtPayload) :
  rs <> [] ->
  (sub p = 0 ->
   canActivate userRoles (Some rs) (Some (jwt_validate p))
     = Err (Unauthorized msg_no_user_id)) /\
  (sub p <> 0 ->
   (canActivate userRoles (Some rs) (Some (jwt_validate p)) = Ok true <->
    exists r, In r rs /\ In r (assigned_role_names userRoles (sub p))) /\
   (canActivate userRoles (Some rs) (Some (jwt_validate p)) = Ok true \/
    canActivate userRoles (Some rs) (Some (jwt_validate p)) = Err (Forbidden msg_forbidden))).
Proof.
  intros Hne. destruct rs as [|r0 rs']; [congruence|]. split.
  - intros H0. unfold canActivate, resolveUserId, jwt_validate, num_opt_truthy.
    cbn [ui_userId ui_sub ui_id]. rewrite H0. reflexivity.
  - intros H0.
    assert (Hr : canActivate userRoles (Some (r0 :: rs')) (Some (jwt_validate p)) =
      if existsb (fun role => bool_decide (role ∈ assigned_role_names userRoles (sub p)))
           (r0 :: rs')
      then Ok true else Err (Forbidden msg_forbidden)).
    { unfold canActivate, resolveUserId, jwt_validate, num_opt_truthy, getUserRoles.
      cbn [ui_userId ui_sub ui_id]. apply Z.eqb_neq in H0. rewrite H0.
      change (negb false) with true. cbv beta iota. rewrite H0. reflexivity. }
    rewrite Hr. destruct (existsb _ _) eqn:Hb.
    + split; [|left; reflexivity].
      split; [intros _; apply has_required_role, Hb|reflexivity].
    + split; [|right; reflexivity]. split; [discriminate|].
      intros Hex. apply has_required_role in Hex. congruence.
Qed.

Lemma canActivate_jwt_witness :
  let rows := [ {| ur_userId := 1; ur_roleName := "user" |};
                {| ur_userId := 2; ur_roleName := "admin" |} ] in
  canActivate rows (Some ["admin"%string]) (Some (jwt_validate {| sub := 2 |})) = Ok true.
Proof.
  intros rows.
  apply (proj2 (proj1 (proj2 (canActivate_jwt rows ["admin"%string] {| sub := 2 |}
                                ltac:(discriminate)) ltac:(discriminate)))).
  exists "admin"%string. simpl. auto.
Defined.

(** ** [UsersService.findByEmailOrUsername] *)

Lemma str_truthy_Some (s : string) : str_truthy (Some s) = true -> s <> ""%string.
Proof. unfold str_truthy. case_bool_decide; simpl; congruence. Qed.

(** [findByEmailOrUsername] issues no query and returns [null] when neither
    argument is truthy; a user it returns is a row of the table whose email
    is the (non-empty) [email] argument or whose username is the
    (non-empty) [username] argument. *)
Theorem findByEmailOrUsername_sound (users : list User) (email username : option string) :
  (str_truthy email = false -> str_truthy username = false ->
   findByEmailOrUsername users email username = ([], None)) /\
  (forall u, (findByEmailOrUsername users email username).2 = Some u ->
   In u users /\
   ((email = Some (u_email u) /\ u_email u <> ""%string) \/
    (username = Some (u_username u) /\ u_username u <> ""%string))).
Proof.
  split.
  - intros He Hu. unfold findByEmailOrUsername. rewrite He, Hu. reflexivity.
  - intros u H. unfold findByEmailOrUsername in H.
    destruct (negb (str_truthy email) && negb (str_truthy username)); [discriminate|].
    destruct email as [e|] eqn:Hem;
      [destruct (str_truthy (Some e)) eqn:He;
       [destruct (findFirst_email users e) as [u1|] eqn:Hf|]|]; simpl in H;
      [injection H as <-;
       unfold findFirst_email in Hf; apply List.find_some in Hf as [Hin Hb];
       apply bool_decide_eq_true_1 in Hb; subst e;
       split; [exact Hin|left; split; [reflexivity|apply str_truthy_Some, He]]|..];
      (destruct username as [n|]; [|discriminate]);
      (destruct (str_truthy (Some n)) eqn:Hn; [|discriminate]); simpl in H;
      unfold findFirst_username in H; apply List.find_some in H as [Hin Hb];
      apply bool_decide_eq_true_1 in Hb; subst n;
      (split; [exact Hin|right; split; [reflexivity|apply str_truthy_Some, Hn]]).
Qed.

Lemma findByEmailOrUsername_sound_witness :
  let alice := {| u_id := 1; u_email := "alice@x.com"; u_username := "alice";
                  u_passwordHash := "h" |} in
  findByEmailOrUsername [alice] (Some ""%string) None = ([], None).
Proof.
  intros alice. apply (proj1 (findByEmailOrUsername_sound [alice] (Some ""%string) None));
    reflexivity.
Defined.
